(** * DevOps & SRE dashboard: progress store and progress roll-ups

    A shallow embedding of [devops_sre_dashboard.py]: the load/save routine
    with its remote-versus-local fallback, the session initialisation and
    reset block, and the percentage roll-ups over the static catalogue.

    Conventions of the embedding.
    - A Python [dict] with string keys is a [gmap string _]: dict equality
      ignores insertion order, as does equality of finite maps.  Dict
      literals that are only iterated (the catalogue) are association lists
      in source order.
    - Python's true division yields a float; ratios are computed here over
      the rationals [Q] and compared with [==].  Every quotient taken by the
      program is a quotient of two small naturals (scaled by 100), so the
      rational is the exact value the float approximates.  Division over
      [Q] is total; [truediv] is Python's, which raises on a zero divisor,
      and is used where a statement is about the guard of a division.
    - File, network and widget calls are the program's environment.  Their
      outcomes are fields of a [World] record or parameters; each call the
      program makes is recorded in a trace of [Event]s. *)

From stdpp Require Import gmap strings list fin_maps.
From Stdlib Require Import Ascii QArith Lqa.

Set Warnings "-register-all".
Open Scope string_scope.

(** ** Python values and exceptions *)

Module Py.

(** The values [json.load] can return.  Numbers are kept integral: the
    program only ever tests them for truthiness. *)
Inductive json : Type :=
  | JNull
  | JBool (b : bool)
  | JNum (n : Z)
  | JStr (s : string)
  | JArr (l : list json)
  | JObj (m : gmap string json).

(** [{}] *)
Definition empty_dict : json := JObj ∅.

(** [isinstance(v, dict)] *)
Definition is_dict (v : json) : bool :=
  match v with JObj _ => true | _ => false end.

(** Truth value testing, as in [if progress.get(full_key, False):]. *)
Definition truthy (v : json) : bool :=
  match v with
  | JNull => false
  | JBool b => b
  | JNum n => negb (n =? 0)%Z
  | JStr s => negb (String.eqb s "")
  | JArr l => match l with [] => false | _ => true end
  | JObj m => negb (bool_decide (m = ∅))
  end.

(** The exception classes the store can meet while it fetches, reads,
    parses or writes.  All of them derive from [Exception]. *)
Inductive exn_class : Type :=
  | JSONDecodeError
  | FileNotFoundError
  | PermissionError
  | IsADirectoryError
  | UnicodeDecodeError
  | ConnectionError
  | Timeout
  | HTTPError
  | ImportError
  | ClientError
  | NoCredentialsError
  | ValueError
  | AttributeError.

Record exn : Type := mkExn { exn_cls : exn_class; exn_str : string }.

Inductive result (A : Type) : Type :=
  | Ok (a : A)
  | Raise (e : exn).
Arguments Ok {A} a.
Arguments Raise {A} e.

Definition returns {A} (r : result A) : bool :=
  match r with Ok _ => true | Raise _ => false end.

(** [except (json.JSONDecodeError, FileNotFoundError):] *)
Definition except_JSONDecodeError_FileNotFoundError (e : exn) : bool :=
  match exn_cls e with
  | JSONDecodeError | FileNotFoundError => true
  | _ => false
  end.

(** [except Exception:] *)
Definition except_Exception (e : exn) : bool :=
  match exn_cls e with
  | JSONDecodeError | FileNotFoundError | PermissionError
  | IsADirectoryError | UnicodeDecodeError | ConnectionError | Timeout
  | HTTPError | ImportError | ClientError | NoCredentialsError
  | ValueError | AttributeError => true
  end.

End Py.
Import Py.

(** ** The progress store: [load_progress] and [save_progress] *)

Module Store.

(** [url.startswith('http://') or url.startswith('https://')] *)
Definition is_http_url (url : string) : bool :=
  String.prefix "http://" url || String.prefix "https://" url.

(** [url.startswith('s3://')] *)
Definition is_s3_url (url : string) : bool :=
  String.prefix "s3://" url.

(** [s[n:]] *)
Fixpoint drop_chars (n : nat) (s : string) : string :=
  match n, s with
  | O, _ => s
  | S _, EmptyString => EmptyString
  | S n', String _ s' => drop_chars n' s'
  end.

(** [s.split('/', 1)]: one part when there is no slash, otherwise the text
    before the first slash and the text after it. *)
Fixpoint split_slash_once (s : string) : list string :=
  match s with
  | EmptyString => [EmptyString]
  | String c s' =>
      if Ascii.eqb c "/"%char then [EmptyString; s']
      else match split_slash_once s' with
           | p :: rest => String c p :: rest
           | [] => [String c EmptyString]
           end
  end.

(** [parse_s3_url]: (bucket, key), or [ValueError('Invalid s3 url')]. *)
Definition parse_s3_url (s3_url : string) : result (string * string) :=
  if String.prefix "s3://" s3_url then
    let without := drop_chars (String.length "s3://") s3_url in
    let parts := split_slash_once without in
    let bucket := List.nth 0 parts "" in
    let key := if (1 <? List.length parts)%nat then List.nth 1 parts "" else "" in
    Ok (bucket, key)
  else Raise (mkExn ValueError "Invalid s3 url").

(** The environment of the store.
    - [local_file]: [None] when [os.path.exists(DATA_FILE)] is false;
      otherwise the outcome of [open(DATA_FILE, 'r')] and [json.load].
    - [local_write]: the exception raised by [open(DATA_FILE, 'w')], if
      any.
    - [local_remove]: the exception raised by [os.remove(DATA_FILE)], if
      any.
    - [http_get url]: the outcome of [requests.get(url, timeout=10)],
      [raise_for_status()] and [resp.json()] (the import included).
    - [s3_client]: the exception raised by [get_s3_client()], if any
      (no [boto3], no usable credentials).
    - [s3_get_error], [s3_put_error]: the exception with which the
      service call [get_object], respectively [put_object], fails, if any.
    - [s3_store bucket key]: what the stored object decodes and parses to
      ([json.loads] of its body), or the exception for a missing key or a
      malformed body. *)
Record World : Type := mkWorld {
  local_file : option (result json);
  local_write : option exn;
  local_remove : option exn;
  http_get : string -> result json;
  s3_client : option exn;
  s3_get_error : option exn;
  s3_put_error : option exn;
  s3_store : string -> string -> result json
}.

(** [s3.get_object(Bucket=bucket, Key=key)], [read], [decode] and
    [json.loads]. *)
Definition s3_get_object (w : World) (bucket key : string) : result json :=
  match s3_get_error w with
  | Some e => Raise e
  | None => s3_store w bucket key
  end.

Inductive Level : Type := Warning | Info | Success | Error.

(** What the store does to its environment, in program order.  A notice is
    the call of [st.warning], [st.info], [st.success] or [st.error]; each
    such call sits in a [try] of its own whose handler is [pass], so a
    failure of the toolkit changes nothing else. *)
Inductive Event : Type :=
  | EvExists                                   (* os.path.exists(DATA_FILE) *)
  | EvReadLocal                                (* open(DATA_FILE, 'r'); json.load *)
  | EvWriteLocal (data : json)                 (* open(DATA_FILE, 'w'); json.dump *)
  | EvRemoveLocal                              (* os.remove(DATA_FILE) *)
  | EvHttpGet (url : string)                   (* requests.get *)
  | EvS3Client                                 (* get_s3_client() *)
  | EvS3Get (bucket key : string)              (* s3.get_object *)
  | EvS3Put (bucket key : string) (body : json)(* s3.put_object *)
  | EvNotice (lvl : Level) (msg : string).     (* st.warning / info / success / error *)

Definition is_network_write (ev : Event) : bool :=
  match ev with EvS3Put _ _ _ => true | _ => false end.

Definition is_notice (ev : Event) : bool :=
  match ev with EvNotice _ _ => true | _ => false end.

(** The block
    [if os.path.exists(DATA_FILE): try: ... return json.load(f)
     except <classes>: return {}] followed by [return {}];
    it occurs three times in [load_progress], with two different
    [except] clauses. *)
Definition read_local (catches : exn -> bool) (w : World)
  : result json * list Event :=
  match local_file w with
  | Some (Ok v) => (Ok v, [EvExists; EvReadLocal])
  | Some (Raise e) =>
      if catches e then (Ok empty_dict, [EvExists; EvReadLocal])
      else (Raise e, [EvExists; EvReadLocal])
  | None => (Ok empty_dict, [EvExists])
  end.

Definition msg_http_load (loc : string) (e : exn) : string :=
  "Could not load remote JSON at " ++ loc ++ ": " ++ exn_str e
    ++ ". Falling back to local file.".

Definition msg_s3_load (loc : string) (e : exn) : string :=
  "Could not load remote S3 JSON " ++ loc ++ ": " ++ exn_str e
    ++ ". Falling back to local file.".

(** The [try] body of the s3 branch of [load_progress]. *)
Definition s3_fetch (loc : string) (w : World) : result json * list Event :=
  match parse_s3_url loc with
  | Raise e => (Raise e, [])
  | Ok (bucket, key) =>
      match s3_client w with
      | Some e => (Raise e, [EvS3Client])
      | None => (s3_get_object w bucket key, [EvS3Client; EvS3Get bucket key])
      end
  end.

(** [load_progress()], with [S3_LOCATION] as the argument [loc]. *)
Definition load_progress (loc : string) (w : World)
  : result json * list Event :=
  if String.eqb loc "" then
    read_local except_JSONDecodeError_FileNotFoundError w
  else if is_http_url loc then
    match http_get w loc with
    | Ok v => (Ok v, [EvHttpGet loc])
    | Raise e =>
        if except_Exception e then
          let '(r, t) := read_local except_Exception w in
          (r, EvHttpGet loc :: EvNotice Warning (msg_http_load loc e) :: t)
        else (Raise e, [EvHttpGet loc])
    end
  else if is_s3_url loc then
    match s3_fetch loc w with
    | (Ok v, t0) => (Ok v, t0)
    | (Raise e, t0) =>
        if except_Exception e then
          let '(r, t) := read_local except_Exception w in
          (r, (t0 ++ EvNotice Warning (msg_s3_load loc e) :: t)%list)
        else (Raise e, t0)
    end
  else (Ok empty_dict, []).

(** The file after a successful [json.dump(data, f, indent=2)]: reading it
    back parses to [data] ([json.load] inverts [json.dump] on values made of
    dicts with string keys, lists, strings, integers, booleans and
    [None]). *)
Definition with_local_file (f : option (result json)) (w : World) : World :=
  {| local_file := f;
     local_write := local_write w;
     local_remove := local_remove w;
     http_get := http_get w;
     s3_client := s3_client w;
     s3_get_error := s3_get_error w;
     s3_put_error := s3_put_error w;
     s3_store := s3_store w |}.

(** The same environment with another outcome of the local write. *)
Definition with_local_write (o : option exn) (w : World) : World :=
  {| local_file := local_file w;
     local_write := o;
     local_remove := local_remove w;
     http_get := http_get w;
     s3_client := s3_client w;
     s3_get_error := s3_get_error w;
     s3_put_error := s3_put_error w;
     s3_store := s3_store w |}.

(** The bucket after a successful [put_object]: whole-object replace. *)
Definition with_s3_object (bucket key : string) (data : json) (w : World)
  : World :=
  {| local_file := local_file w;
     local_write := local_write w;
     local_remove := local_remove w;
     http_get := http_get w;
     s3_client := s3_client w;
     s3_get_error := s3_get_error w;
     s3_put_error := s3_put_error w;
     s3_store := fun b k =>
       if String.eqb b bucket && String.eqb k key then Ok data
       else s3_store w b k |}.

Definition msg_local_write (e : exn) : string :=
  "Could not write local backup: " ++ exn_str e.

Definition msg_http_readonly : string :=
  "Remote location is HTTP(S) (public). Local copy saved. To enable remote uploads, set DASHBOARD_S3_LOCATION to an s3:// URL and provide AWS credentials.".

Definition msg_s3_saved : string := "Progress saved to S3".

Definition msg_s3_failed (e : exn) : string :=
  "Failed to save to S3: " ++ exn_str e.

(** The first [try] of [save_progress]: the local backup.  A write that
    succeeds leaves the file holding [data]; that the file can then be
    opened for reading is the condition [can_be_read_back] of the statements
    that read it back. *)
Definition write_local (data : json) (w : World) : World * list Event :=
  match local_write w with
  | None => (with_local_file (Some (Ok data)) w, [EvWriteLocal data])
  | Some e =>
      if except_Exception e then
        (w, [EvWriteLocal data; EvNotice Warning (msg_local_write e)])
      else (w, [EvWriteLocal data])
  end.

(** The [try] of the s3 branch of [save_progress]. *)
Definition s3_upload (loc : string) (data : json) (w : World)
  : World * list Event :=
  match parse_s3_url loc with
  | Raise e => (w, [EvNotice Error (msg_s3_failed e)])
  | Ok (bucket, key) =>
      match s3_client w with
      | Some e => (w, [EvS3Client; EvNotice Error (msg_s3_failed e)])
      | None =>
          match s3_put_error w with
          | Some e =>
              (w, [EvS3Client; EvS3Put bucket key data;
                   EvNotice Error (msg_s3_failed e)])
          | None =>
              (with_s3_object bucket key data w,
               [EvS3Client; EvS3Put bucket key data;
                EvNotice Success msg_s3_saved])
          end
      end
  end.

(** [save_progress(data)], with [S3_LOCATION] as the argument [loc].  Every
    handler of the function is [except Exception], so it always returns
    [None]; the result is the environment afterwards and the trace. *)
Definition save_progress (loc : string) (data : json) (w : World)
  : World * list Event :=
  let '(w1, t1) := write_local data w in
  if String.eqb loc "" then (w1, t1)
  else if is_http_url loc then
    (w1, (t1 ++ [EvNotice Info msg_http_readonly])%list)
  else if is_s3_url loc then
    let '(w2, t2) := s3_upload loc data w1 in (w2, (t1 ++ t2)%list)
  else (w1, t1).

(** The default of [os.environ.get("DASHBOARD_S3_LOCATION", ...)]. *)
Definition default_S3_LOCATION : string :=
  "https://nasir473-resume.s3.ap-south-1.amazonaws.com/dev-ops-dashboard/dashboard_progress.json".

(** [S3_LOCATION], from the value of the environment variable. *)
Definition S3_LOCATION (env : option string) : string :=
  match env with Some v => v | None => default_S3_LOCATION end.

(** ['/' not in s] *)
Fixpoint no_slash (s : string) : bool :=
  match s with
  | EmptyString => true
  | String c s' => negb (Ascii.eqb c "/"%char) && no_slash s'
  end.

Definition is_s3_event (ev : Event) : bool :=
  match ev with
  | EvS3Client | EvS3Get _ _ | EvS3Put _ _ _ => true
  | _ => false
  end.

Definition is_http_event (ev : Event) : bool :=
  match ev with EvHttpGet _ => true | _ => false end.

Definition is_local_read (ev : Event) : bool :=
  match ev with EvExists | EvReadLocal => true | _ => false end.

(** What [get_s3_client] does to produce a client. *)
Inductive ClientStep : Type :=
  | StepImport                                   (* import boto3 *)
  | StepCreate.                                  (* boto3.client('s3') *)

(** [get_s3_client()], with the global [_s3_client] as explicit state:
    the argument is its value before the call, the second component of the
    result its value after.  [import_boto3] is the exception [import boto3]
    raises, if any; [new_client] is the outcome of [boto3.client('s3')]. *)
Definition get_s3_client {Client : Type} (import_boto3 : option exn)
    (new_client : result Client) (_s3_client : option Client)
  : result Client * option Client * list ClientStep :=
  match _s3_client with
  | Some c => (Ok c, Some c, [])
  | None =>
      match import_boto3 with
      | Some e => (Raise e, None, [StepImport])
      | None =>
          match new_client with
          | Ok c => (Ok c, Some c, [StepImport; StepCreate])
          | Raise e => (Raise e, None, [StepImport; StepCreate])
          end
      end
  end.

End Store.
Import Store.

(** ** The static catalogue *)

Module Catalogue.

(** [sections_data] of [calculate_section_progress]: main section, then
    subsection key, then task keys. *)

Definition sections_data : list (string * list (string * list string)) :=
  [
   ("foundations",
    [
      ("linux",
       ["basic_commands"; "file_operations"; "permissions";
        "text_processing"; "process_mgmt"; "system_info"; "package_mgmt";
        "user_mgmt"; "cron_jobs"; "log_analysis"]);
      ("scripting",
       ["bash_basics"; "bash_advanced"; "python_basics"; "python_modules";
        "automation_scripts"; "error_handling"; "script_deployment";
        "config_management"]);
      ("docker",
       ["docker_concepts"; "dockerfile"; "docker_commands";
        "volumes_networks"; "docker_compose"; "registry_mgmt"; "security";
        "optimization"]);
      ("yaml_json",
       ["yaml_syntax"; "json_syntax"; "data_validation"; "templating";
        "config_files"; "api_responses"]);
      ("networking",
       ["osi_model"; "ip_subnetting"; "dns_concepts"; "load_balancing";
        "firewalls"; "network_tools"; "ssl_tls"; "vpn_concepts"]);
      ("sdlc",
       ["sdlc_phases"; "agile_scrum"; "waterfall"; "devops_integration";
        "quality_assurance"; "deployment_strategies"])
    ]);
   ("cicd",
    [
      ("git",
       ["git_basics"; "branching"; "git_workflow"; "conflict_resolution";
        "git_hooks"; "github_features"; "code_review"; "git_advanced"]);
      ("jenkins",
       ["jenkins_setup"; "pipeline_syntax"; "build_jobs"; "pipeline_stages";
        "jenkins_plugins"; "build_triggers"; "artifacts"; "jenkins_security"]);
      ("github_actions",
       ["workflow_syntax"; "actions_marketplace"; "ci_workflows";
        "cd_workflows"; "secrets_management"; "matrix_builds";
        "custom_actions"; "workflow_optimization"]);
      ("testing",
       ["unit_testing"; "integration_testing"; "e2e_testing";
        "test_automation"; "code_coverage"; "performance_testing";
        "security_testing"; "test_reporting"]);
      ("deployment",
       ["deployment_strategies"; "rollback_mechanisms"; "env_management";
        "config_management"; "release_automation"; "deployment_tools";
        "database_migrations"; "monitoring_deployment"])
    ]);
   ("cloud",
    [
      ("aws",
       ["aws_basics"; "ec2"; "s3"; "iam"; "vpc"; "rds"; "cloudwatch";
        "lambda"; "elb"; "aws_cli"]);
      ("terraform",
       ["terraform_basics"; "terraform_state"; "terraform_modules";
        "terraform_variables"; "terraform_provisioners";
        "terraform_workspaces"; "terraform_import"; "terraform_best_practices"]);
      ("k8s",
       ["k8s_architecture"; "pods"; "deployments"; "services";
        "configmaps_secrets"; "ingress"; "volumes"; "rbac"; "kubectl";
        "troubleshooting"]);
      ("helm",
       ["helm_basics"; "helm_templates"; "helm_hooks"; "kustomize_basics";
        "kustomize_patches"; "package_management"; "helm_security"])
    ]);
   ("monitoring",
    [
      ("prometheus",
       ["prometheus_basics"; "metrics_collection"; "promql";
        "alerting_rules"; "grafana_dashboards"; "grafana_alerts";
        "service_discovery"; "monitoring_best_practices"]);
      ("elk",
       ["elasticsearch"; "logstash"; "kibana"; "filebeat"; "fluentd";
        "log_parsing"; "index_management"; "security_logging"]);
      ("cloudwatch",
       ["cloudwatch_metrics"; "cloudwatch_logs"; "cloudwatch_alarms";
        "cloudwatch_dashboards"; "datadog_basics"; "datadog_dashboards";
        "datadog_alerts"; "apm_tracing"]);
      ("incident",
       ["incident_response"; "on_call_practices"; "escalation_procedures";
        "incident_tools"; "post_incident"; "runbooks"; "communication";
        "metrics_tracking"])
    ]);
   ("sre",
    [
      ("slo",
       ["sli_definition"; "slo_setting"; "sla_management"; "error_budget";
        "slo_monitoring"; "slo_reporting"]);
      ("budget",
       ["error_budget_concept"; "toil_identification";
        "automation_prioritization"; "capacity_planning";
        "reliability_engineering"; "toil_reduction"]);
      ("rca",
       ["incident_classification"; "incident_response_process";
        "rca_methodology"; "blameless_postmortem"; "action_items";
        "incident_prevention"; "communication_protocols"; "learning_culture"]);
      ("automation",
       ["infrastructure_automation"; "deployment_automation";
        "testing_automation"; "monitoring_automation"; "self_healing";
        "auto_scaling"; "pipeline_optimization"; "automation_testing"]);
      ("chaos",
       ["chaos_principles"; "chaos_tools"; "failure_injection";
        "blast_radius"; "chaos_experiments"; "resilience_testing";
        "gamedays"; "chaos_automation"])
    ])
  ].

Definition linux_subtasks : list (string * string) :=
  [ ("basic_commands", "Basic Commands (ls, cd, pwd, mkdir, rmdir)");
    ("file_operations", "File Operations (cp, mv, rm, find, grep)");
    ("permissions", "File Permissions & Ownership (chmod, chown, chgrp)");
    ("text_processing", "Text Processing (cat, head, tail, awk, sed)");
    ("process_mgmt", "Process Management (ps, top, kill, jobs, nohup)");
    ("system_info", "System Information (df, du, free, uname, lscpu)");
    ("package_mgmt", "Package Management (apt, yum, dpkg, rpm)");
    ("user_mgmt", "User & Group Management (useradd, usermod, su, sudo)");
    ("cron_jobs", "Cron Jobs & Task Scheduling");
    ("log_analysis", "Log Files & System Monitoring (/var/log, journalctl)") ].

Definition scripting_subtasks : list (string * string) :=
  [ ("bash_basics", "Bash Scripting Basics (variables, loops, conditions)");
    ("bash_advanced", "Advanced Bash (functions, arrays, error handling)");
    ("python_basics", "Python Basics (syntax, data types, control flow)");
    ("python_modules", "Python Modules (os, sys, subprocess, requests)");
    ("automation_scripts", "Automation Scripts (file processing, API calls)");
    ("error_handling", "Error Handling & Logging");
    ("script_deployment", "Script Deployment & Execution");
    ("config_management", "Configuration Management with Scripts") ].

Definition docker_subtasks : list (string * string) :=
  [ ("docker_concepts", "Docker Concepts (images, containers, registries)");
    ("dockerfile", "Dockerfile Creation & Best Practices");
    ("docker_commands", "Docker Commands (run, build, push, pull)");
    ("volumes_networks", "Docker Volumes & Networks");
    ("docker_compose", "Docker Compose (multi-container apps)");
    ("registry_mgmt", "Registry Management (Docker Hub, ECR)");
    ("security", "Container Security Best Practices");
    ("optimization", "Image Optimization & Layer Management") ].

Definition yaml_json_subtasks : list (string * string) :=
  [ ("yaml_syntax", "YAML Syntax & Structure");
    ("json_syntax", "JSON Syntax & Structure");
    ("data_validation", "Data Validation & Schema");
    ("templating", "YAML/JSON Templating (Jinja2, Go templates)");
    ("config_files", "Configuration Files Management");
    ("api_responses", "API Request/Response Handling") ].

Definition networking_subtasks : list (string * string) :=
  [ ("osi_model", "OSI Model & TCP/IP Stack");
    ("ip_subnetting", "IP Addressing & Subnetting");
    ("dns_concepts", "DNS & Domain Resolution");
    ("load_balancing", "Load Balancing Concepts");
    ("firewalls", "Firewalls & Security Groups");
    ("network_tools", "Network Tools (ping, telnet, netstat, ss)");
    ("ssl_tls", "SSL/TLS & Certificate Management");
    ("vpn_concepts", "VPN & Network Security") ].

Definition sdlc_subtasks : list (string * string) :=
  [ ("sdlc_phases", "SDLC Phases (Planning, Analysis, Design, Implementation)");
    ("agile_scrum", "Agile & Scrum Methodologies");
    ("waterfall", "Waterfall Model Understanding");
    ("devops_integration", "DevOps Integration in SDLC");
    ("quality_assurance", "Quality Assurance & Testing");
    ("deployment_strategies", "Deployment Strategies & Release Management") ].

Definition git_subtasks : list (string * string) :=
  [ ("git_basics", "Git Basics (init, add, commit, push, pull)");
    ("branching", "Branching & Merging Strategies");
    ("git_workflow", "Git Workflow (feature branches, PRs)");
    ("conflict_resolution", "Merge Conflict Resolution");
    ("git_hooks", "Git Hooks & Pre-commit");
    ("github_features", "GitHub Features (Issues, Projects, Actions)");
    ("code_review", "Code Review Process");
    ("git_advanced", "Advanced Git (rebase, squash, cherry-pick)") ].

Definition jenkins_subtasks : list (string * string) :=
  [ ("jenkins_setup", "Jenkins Installation & Configuration");
    ("pipeline_syntax", "Pipeline Syntax (Declarative & Scripted)");
    ("build_jobs", "Build Jobs & Freestyle Projects");
    ("pipeline_stages", "Pipeline Stages & Steps");
    ("jenkins_plugins", "Jenkins Plugins (Git, Docker, AWS)");
    ("build_triggers", "Build Triggers & Webhooks");
    ("artifacts", "Artifact Management");
    ("jenkins_security", "Jenkins Security & Access Control") ].

Definition github_actions_subtasks : list (string * string) :=
  [ ("workflow_syntax", "Workflow YAML Syntax");
    ("actions_marketplace", "GitHub Actions Marketplace");
    ("ci_workflows", "CI Workflows (build, test, lint)");
    ("cd_workflows", "CD Workflows (deploy, release)");
    ("secrets_management", "Secrets & Environment Variables");
    ("matrix_builds", "Matrix Builds & Strategy");
    ("custom_actions", "Custom Actions Development");
    ("workflow_optimization", "Workflow Optimization & Caching") ].

Definition testing_subtasks : list (string * string) :=
  [ ("unit_testing", "Unit Testing Frameworks");
    ("integration_testing", "Integration Testing");
    ("e2e_testing", "End-to-End Testing");
    ("test_automation", "Test Automation in CI/CD");
    ("code_coverage", "Code Coverage & Quality Gates");
    ("performance_testing", "Performance & Load Testing");
    ("security_testing", "Security Testing (SAST, DAST)");
    ("test_reporting", "Test Reporting & Metrics") ].

Definition deployment_subtasks : list (string * string) :=
  [ ("deployment_strategies", "Deployment Strategies (Blue-Green, Canary)");
    ("rollback_mechanisms", "Rollback Mechanisms");
    ("env_management", "Environment Management");
    ("config_management", "Configuration Management");
    ("release_automation", "Release Automation");
    ("deployment_tools", "Deployment Tools (Ansible, Octopus)");
    ("database_migrations", "Database Migration Automation");
    ("monitoring_deployment", "Deployment Monitoring & Validation") ].

Definition aws_subtasks : list (string * string) :=
  [ ("aws_basics", "AWS Basics & Global Infrastructure");
    ("ec2", "EC2 (Instances, AMIs, Key Pairs, Security Groups)");
    ("s3", "S3 (Buckets, Objects, Permissions, Lifecycle)");
    ("iam", "IAM (Users, Groups, Roles, Policies)");
    ("vpc", "VPC (Subnets, Route Tables, Internet Gateway)");
    ("rds", "RDS & Database Services");
    ("cloudwatch", "CloudWatch (Metrics, Logs, Alarms)");
    ("lambda", "Lambda & Serverless");
    ("elb", "Load Balancers (ALB, NLB, CLB)");
    ("aws_cli", "AWS CLI & SDK") ].

Definition terraform_subtasks : list (string * string) :=
  [ ("terraform_basics", "Terraform Basics (HCL, Resources, Providers)");
    ("terraform_state", "State Management & Backends");
    ("terraform_modules", "Modules & Code Organization");
    ("terraform_variables", "Variables & Outputs");
    ("terraform_provisioners", "Provisioners & Local-exec");
    ("terraform_workspaces", "Workspaces & Environment Management");
    ("terraform_import", "Import & Data Sources");
    ("terraform_best_practices", "Best Practices & Security") ].

Definition k8s_subtasks : list (string * string) :=
  [ ("k8s_architecture", "Kubernetes Architecture & Components");
    ("pods", "Pods & Container Management");
    ("deployments", "Deployments & ReplicaSets");
    ("services", "Services & Networking");
    ("configmaps_secrets", "ConfigMaps & Secrets");
    ("ingress", "Ingress Controllers & Load Balancing");
    ("volumes", "Persistent Volumes & Storage");
    ("rbac", "RBAC & Security");
    ("kubectl", "kubectl Commands & Management");
    ("troubleshooting", "Troubleshooting & Debugging") ].

Definition helm_subtasks : list (string * string) :=
  [ ("helm_basics", "Helm Basics (Charts, Releases, Repositories)");
    ("helm_templates", "Helm Templates & Values");
    ("helm_hooks", "Helm Hooks & Lifecycle");
    ("kustomize_basics", "Kustomize Basics & Overlays");
    ("kustomize_patches", "Kustomize Patches & Transformers");
    ("package_management", "Package Management Strategies");
    ("helm_security", "Helm Security & Best Practices") ].

Definition prometheus_subtasks : list (string * string) :=
  [ ("prometheus_basics", "Prometheus Basics & Architecture");
    ("metrics_collection", "Metrics Collection & Exporters");
    ("promql", "PromQL Query Language");
    ("alerting_rules", "Alerting Rules & Alertmanager");
    ("grafana_dashboards", "Grafana Dashboards & Visualization");
    ("grafana_alerts", "Grafana Alerting & Notifications");
    ("service_discovery", "Service Discovery & Targets");
    ("monitoring_best_practices", "Monitoring Best Practices") ].

Definition elk_subtasks : list (string * string) :=
  [ ("elasticsearch", "Elasticsearch (Indexing, Searching, Clusters)");
    ("logstash", "Logstash (Data Processing & Pipelines)");
    ("kibana", "Kibana (Visualization & Dashboards)");
    ("filebeat", "Filebeat & Log Shipping");
    ("fluentd", "Fluentd & Log Collection");
    ("log_parsing", "Log Parsing & Grok Patterns");
    ("index_management", "Index Management & Lifecycle");
    ("security_logging", "Security & Access Control") ].

Definition cloudwatch_subtasks : list (string * string) :=
  [ ("cloudwatch_metrics", "CloudWatch Metrics & Custom Metrics");
    ("cloudwatch_logs", "CloudWatch Logs & Log Groups");
    ("cloudwatch_alarms", "CloudWatch Alarms & SNS");
    ("cloudwatch_dashboards", "CloudWatch Dashboards");
    ("datadog_basics", "Datadog Basics & Agent Setup");
    ("datadog_dashboards", "Datadog Dashboards & Widgets");
    ("datadog_alerts", "Datadog Alerts & Monitors");
    ("apm_tracing", "APM & Distributed Tracing") ].

Definition incident_subtasks : list (string * string) :=
  [ ("incident_response", "Incident Response Procedures");
    ("on_call_practices", "On-call Practices & Rotation");
    ("escalation_procedures", "Escalation Procedures");
    ("incident_tools", "Incident Management Tools (PagerDuty, Opsgenie)");
    ("post_incident", "Post-Incident Reviews & RCA");
    ("runbooks", "Runbooks & Documentation");
    ("communication", "Incident Communication & Status Pages");
    ("metrics_tracking", "Incident Metrics & KPIs") ].

Definition slo_subtasks : list (string * string) :=
  [ ("sli_definition", "SLI Definition & Measurement");
    ("slo_setting", "SLO Setting & Target Definition");
    ("sla_management", "SLA Management & Customer Agreements");
    ("error_budget", "Error Budget Calculation & Tracking");
    ("slo_monitoring", "SLO Monitoring & Alerting");
    ("slo_reporting", "SLO Reporting & Dashboards") ].

Definition budget_subtasks : list (string * string) :=
  [ ("error_budget_concept", "Error Budget Concepts & Policy");
    ("toil_identification", "Toil Identification & Measurement");
    ("automation_prioritization", "Automation Prioritization");
    ("capacity_planning", "Capacity Planning & Scaling");
    ("reliability_engineering", "Reliability Engineering Practices");
    ("toil_reduction", "Toil Reduction Strategies") ].

Definition rca_subtasks : list (string * string) :=
  [ ("incident_classification", "Incident Classification & Severity");
    ("incident_response_process", "Incident Response Process & Timeline");
    ("rca_methodology", "Root Cause Analysis Methodology");
    ("blameless_postmortem", "Blameless Postmortems");
    ("action_items", "Action Items & Follow-up");
    ("incident_prevention", "Incident Prevention Strategies");
    ("communication_protocols", "Communication Protocols");
    ("learning_culture", "Learning Culture & Continuous Improvement") ].

Definition automation_subtasks : list (string * string) :=
  [ ("infrastructure_automation", "Infrastructure Automation");
    ("deployment_automation", "Deployment Automation & Rollbacks");
    ("testing_automation", "Testing Automation & Quality Gates");
    ("monitoring_automation", "Monitoring & Alerting Automation");
    ("self_healing", "Self-Healing Systems");
    ("auto_scaling", "Auto-scaling & Resource Management");
    ("pipeline_optimization", "CI/CD Pipeline Optimization");
    ("automation_testing", "Automation Testing & Validation") ].

Definition chaos_subtasks : list (string * string) :=
  [ ("chaos_principles", "Chaos Engineering Principles");
    ("chaos_tools", "Chaos Tools (Chaos Monkey, Litmus, Gremlin)");
    ("failure_injection", "Failure Injection & Scenarios");
    ("blast_radius", "Blast Radius & Safety Measures");
    ("chaos_experiments", "Chaos Experiments Design");
    ("resilience_testing", "Resilience Testing & Validation");
    ("gamedays", "Game Days & Disaster Recovery");
    ("chaos_automation", "Chaos Automation & Scheduling") ].


(** One call [create_subtask_section(main_task, subtasks, section_key)]. *)
Record Panel : Type := mkPanel {
  main_task : string;
  subtasks : list (string * string);
  section_key : string
}.

(** The calls of each page section, in source order; their results are
    collected in [all_foundations_progress], [all_cicd_progress],
    [all_cloud_progress], [all_monitoring_progress] and
    [all_sre_progress]. *)
Definition foundations_page : list Panel :=
  [ mkPanel "Linux Fundamentals" linux_subtasks "linux";
    mkPanel "Scripting (Shell/Python)" scripting_subtasks "scripting";
    mkPanel "Containers / Docker Basics" docker_subtasks "docker";
    mkPanel "YAML & JSON" yaml_json_subtasks "yaml_json";
    mkPanel "Networking Basics" networking_subtasks "networking";
    mkPanel "SDLC Life Cycle" sdlc_subtasks "sdlc" ].

Definition cicd_page : list Panel :=
  [ mkPanel "Git & GitHub" git_subtasks "git";
    mkPanel "Jenkins Pipelines" jenkins_subtasks "jenkins";
    mkPanel "GitHub Actions" github_actions_subtasks "github_actions";
    mkPanel "Automated Testing" testing_subtasks "testing";
    mkPanel "Deployment Automation" deployment_subtasks "deployment" ].

Definition cloud_page : list Panel :=
  [ mkPanel "AWS Fundamentals" aws_subtasks "aws";
    mkPanel "Terraform" terraform_subtasks "terraform";
    mkPanel "Kubernetes" k8s_subtasks "k8s";
    mkPanel "Helm / Kustomize" helm_subtasks "helm" ].

Definition monitoring_page : list Panel :=
  [ mkPanel "Prometheus / Grafana" prometheus_subtasks "prometheus";
    mkPanel "ELK / EFK Stack" elk_subtasks "elk";
    mkPanel "CloudWatch / Datadog" cloudwatch_subtasks "cloudwatch";
    mkPanel "Incident Management / On-call" incident_subtasks "incident" ].

Definition sre_page : list Panel :=
  [ mkPanel "SLO / SLI / SLA" slo_subtasks "slo";
    mkPanel "Error Budgets & Toil Reduction" budget_subtasks "budget";
    mkPanel "Incident Response & RCA" rca_subtasks "rca";
    mkPanel "Automation / CI Improvements" automation_subtasks "automation";
    mkPanel "Chaos Engineering" chaos_subtasks "chaos" ].

Definition page : list (list Panel) :=
  [foundations_page; cicd_page; cloud_page; monitoring_page; sre_page].

End Catalogue.
Import Catalogue.

(** ** Progress roll-ups *)

Module Aggregator.

(** [sum(items.values())] over booleans: [True] counts 1. *)
Definition sum_values (items : list (string * bool)) : Z :=
  fold_left (fun (acc : Z) (kv : string * bool) =>
               if snd kv then (acc + 1)%Z else acc) items 0%Z.

(** [len(items)] *)
Definition len {A} (l : list A) : Z := Z.of_nat (length l).

(** [a / b] on two ints: the quotient, or [None] where Python raises
    [ZeroDivisionError]. *)
Definition truediv (a b : Z) : option Q :=
  if (b =? 0)%Z then None else Some (inject_Z a / inject_Z b).

(** [section_progress(items)]:
    [sum(items.values()) / len(items) * 100 if items else 0];
    [None] where the expression raises. *)
Definition section_progress (items : list (string * bool)) : option Q :=
  match items with
  | [] => Some 0
  | _ =>
      match truediv (sum_values items) (len items) with
      | Some q => Some (q * 100)
      | None => None
      end
  end.

(** [f"{section_key}_{subtask_key}"] *)
Definition full_key (section_key subtask_key : string) : string :=
  section_key ++ "_" ++ subtask_key.

(** [progress.get(key, False)] *)
Definition get_flag (progress : gmap string json) (key : string) : json :=
  match progress !! key with Some v => v | None => JBool false end.

Section Widgets.

(** [st.checkbox(label, value=..., key=...)]: the toolkit decides what
    the box returns (the user's tick, or the default [value]). *)
Variable checkbox : string -> json -> string -> bool.

(** [persistent_checkbox(label, key)], on [st.session_state.progress]. *)
Definition persistent_checkbox (label key : string)
    (progress : gmap string json) : bool * gmap string json :=
  let value := checkbox label (get_flag progress key) key in
  (value, <[key := JBool value]> progress).

(** The [for] loop of [create_subtask_section].  The keys of [subtasks]
    are those of a dict, hence distinct, so each assignment
    [subtask_progress[subtask_key] = ...] adds an entry. *)
Fixpoint subtask_loop (section_key : string)
    (subtasks : list (string * string)) (progress : gmap string json)
  : list (string * bool) * gmap string json :=
  match subtasks with
  | [] => ([], progress)
  | (subtask_key, subtask_name) :: rest =>
      let '(value, progress1) :=
        persistent_checkbox subtask_name (full_key section_key subtask_key)
          progress in
      let '(subtask_progress, progress2) :=
        subtask_loop section_key rest progress1 in
      ((subtask_key, value) :: subtask_progress, progress2)
  end.

(** [create_subtask_section(main_task, subtasks, section_key)]: the
    returned [subtask_progress], the fraction handed to [st.progress]
    (none for an empty [subtasks]) and the session's document
    afterwards. *)
Definition create_subtask_section (main_task : string)
    (subtasks : list (string * string)) (section_key : string)
    (progress : gmap string json)
  : list (string * bool) * option Q * gmap string json :=
  let '(subtask_progress, progress') :=
    subtask_loop section_key subtasks progress in
  let bar :=
    match subtasks with
    | [] => None
    | _ =>
        let progress_pct :=
          inject_Z (sum_values subtask_progress)
            / inject_Z (len subtask_progress) * 100 in
        Some (progress_pct / 100)
    end in
  (subtask_progress, bar, progress').

(** The panels of one page section, top to bottom: the list
    [all_<section>_progress] and the document afterwards. *)
Fixpoint render_panels (panels : list Panel) (progress : gmap string json)
  : list (list (string * bool)) * gmap string json :=
  match panels with
  | [] => ([], progress)
  | p :: rest =>
      let '(sp, _, progress1) :=
        create_subtask_section (main_task p) (subtasks p) (section_key p)
          progress in
      let '(all, progress2) := render_panels rest progress1 in
      (sp :: all, progress2)
  end.

(** All five page sections, in order. *)
Fixpoint render_page (sections : list (list Panel))
    (progress : gmap string json)
  : list (list (list (string * bool))) * gmap string json :=
  match sections with
  | [] => ([], progress)
  | panels :: rest =>
      let '(all, progress1) := render_panels panels progress in
      let '(alls, progress2) := render_page rest progress1 in
      (all :: alls, progress2)
  end.

End Widgets.

(** [sum([sum(section.values()) for section in all_progress])] *)
Definition page_total (all_progress : list (list (string * bool))) : Z :=
  fold_left Z.add (map sum_values all_progress) 0%Z.

(** [sum([len(section) for section in all_progress])] *)
Definition page_count (all_progress : list (list (string * bool))) : Z :=
  fold_left Z.add (map len all_progress) 0%Z.

(** [f_progress], [cicd_progress], ... as recomputed under each page
    section: [(total / count * 100) if count > 0 else 0]. *)
Definition page_section_progress
    (all_progress : list (list (string * bool))) : Q :=
  let total := page_total all_progress in
  let count := page_count all_progress in
  if (0 <? count)%Z then inject_Z total / inject_Z count * 100 else 0.

(** The inner loop of [calculate_section_progress] over the tasks of one
    subsection, on the pair [(total_completed, total_tasks)]. *)
Definition count_tasks (progress : gmap string json)
    (subsection_key : string) (tasks : list string) (acc : Z * Z) : Z * Z :=
  fold_left
    (fun '(total_completed, total_tasks) task =>
       let total_completed' :=
         if truthy (get_flag progress (full_key subsection_key task))
         then (total_completed + 1)%Z else total_completed in
       (total_completed', (total_tasks + 1)%Z))
    tasks acc.

(** The loop over the subsections of one main section, from [(0, 0)]. *)
Definition count_section (progress : gmap string json)
    (subsections : list (string * list string)) : Z * Z :=
  fold_left
    (fun acc '(subsection_key, tasks) =>
       count_tasks progress subsection_key tasks acc)
    subsections (0%Z, 0%Z).

(** [(total_completed / total_tasks * 100) if total_tasks > 0 else 0] *)
Definition percent (total_completed total_tasks : Z) : Q :=
  if (0 <? total_tasks)%Z
  then inject_Z total_completed / inject_Z total_tasks * 100 else 0.

(** [calculate_section_progress()] over an arbitrary table: the three
    dicts [section_progress], [section_totals], [section_counts]. *)
Definition calculate_over
    (data : list (string * list (string * list string)))
    (progress : gmap string json)
  : list (string * Q) * list (string * Z) * list (string * Z) :=
  let rows :=
    map (fun '(main_section, subsections) =>
           (main_section, count_section progress subsections)) data in
  (map (fun '(s, (c, t)) => (s, percent c t)) rows,
   map (fun '(s, (c, _)) => (s, c)) rows,
   map (fun '(s, (_, t)) => (s, t)) rows).

(** [calculate_section_progress()] *)
Definition calculate_section_progress (progress : gmap string json) :=
  calculate_over sections_data progress.

(** [d.get(key, default)] on a dict built entry by entry. *)
Fixpoint dict_get {A} (d : list (string * A)) (key : string) (default : A)
  : A :=
  match d with
  | [] => default
  | (k, v) :: rest => if String.eqb k key then v else dict_get rest key default
  end.

(** [overall], lines 283 to 289: the five looked-up percentages, summed and
    divided by 5. *)
Definition overall (progress : gmap string json) : Q :=
  let '(progress_data, _, _) := calculate_section_progress progress in
  let f_progress := dict_get progress_data "foundations" 0 in
  let cicd_progress := dict_get progress_data "cicd" 0 in
  let cloud_progress := dict_get progress_data "cloud" 0 in
  let mon_progress := dict_get progress_data "monitoring" 0 in
  let sre_progress := dict_get progress_data "sre" 0 in
  (f_progress + cicd_progress + cloud_progress + mon_progress + sre_progress)
    / 5.

(** The fraction handed to the top progress bar: [st.progress(overall / 100)]. *)
Definition overall_bar (progress : gmap string json) : Q :=
  overall progress / 100.

(** The summary line: [sum(totals_data.values())] and
    [sum(counts_data.values())]. *)
Definition totals (progress : gmap string json) : Z * Z :=
  let '(_, totals_data, counts_data) := calculate_section_progress progress in
  (fold_left Z.add (map snd totals_data) 0%Z,
   fold_left Z.add (map snd counts_data) 0%Z).

End Aggregator.
Import Aggregator.

(** ** The session: initialisation, autosave and the reset block *)

Module Session.

(** [st.session_state.notes]: a dict with exactly these three keys. *)
Record Notes : Type := mkNotes {
  to_learn : json;
  in_progress : json;
  completed : json
}.

Definition notes_dict (n : Notes) : json :=
  JObj (<["to_learn" := to_learn n]>
        (<["in_progress" := in_progress n]>
         (<["completed" := completed n]> ∅))).

(** The three keys the script keeps in [st.session_state]; [None] is an
    absent key. *)
Record SessionState : Type := mkSession {
  progress : option json;
  notes : option Notes;
  show_reset_confirmation : option bool
}.

(** [st.session_state.clear()] *)
Definition cleared : SessionState := mkSession None None None.

(** What the user and the toolkit feed one run of the script. *)
Record UI : Type := mkUI {
  checkbox : string -> json -> string -> bool;   (* st.checkbox *)
  text_area : string -> json -> string;          (* st.text_area(label, value=...) *)
  button_reset : bool;                           (* "Reset Progress" pressed *)
  button_yes : bool;                             (* "Yes, Reset" pressed *)
  button_cancel : bool                           (* "Cancel" pressed *)
}.

(** A computation that may raise, with the trace of what it did. *)
Definition M (A : Type) : Type := result A * list Event.

Definition ret {A} (a : A) : M A := (Ok a, []).

Definition fail {A} (c : exn_class) (msg : string) : M A :=
  (Raise (mkExn c msg), []).

Definition bind {A B} (m : M A) (f : A -> M B) : M B :=
  match m with
  | (Ok a, t) => let '(r, t') := f a in (r, (t ++ t')%list)
  | (Raise e, t) => (Raise e, t)
  end.

Definition emit (ev : Event) : M unit := (Ok tt, [ev]).

Notation "'do' x <- m ; k" := (bind m (fun x => k))
  (at level 10, x pattern, m at level 100, k at level 200).

(** [v.get(key, default)]: only a dict has the method. *)
Definition py_get (v : json) (key : string) (default : json) : M json :=
  match v with
  | JObj m => ret (match m !! key with Some x => x | None => default end)
  | _ => fail AttributeError "object has no attribute 'get'"
  end.

(** Lines 148 to 158: fill in the session keys that are absent. *)
Definition init_session (loc : string) (w : World) (s : SessionState)
  : M SessionState :=
  do p <- match progress s with
          | Some p => ret p
          | None => load_progress loc w
          end;
  do n <- match notes s with
       | Some n => ret n
       | None =>
           do notes_data <- py_get p "notes" empty_dict;
           do a <- py_get notes_data "to_learn" (JStr "");
           do b <- py_get notes_data "in_progress" (JStr "");
           do c <- py_get notes_data "completed" (JStr "");
           ret (mkNotes a b c)
       end;
  let flag := match show_reset_confirmation s with
              | Some b => b
              | None => false
              end in
  ret (mkSession (Some p) (Some n) (Some flag)).

(** Lines 751 to 768: the three text areas overwrite the notes.  A text
    area whose value is a string returns a string; that the notes at hand
    are strings is the condition [text_notes] of the statements about the
    notes a run leaves. *)
Definition edit_notes (ui : UI) (n : Notes) : Notes :=
  mkNotes (JStr (text_area ui "📘 To Learn Next" (to_learn n)))
          (JStr (text_area ui "🟡 In Progress" (in_progress n)))
          (JStr (text_area ui "✅ Completed" (completed n))).

(** Lines 772 and 773: [progress['notes'] = notes] and
    [save_progress(progress)]. *)
Definition autosave (loc : string) (doc : gmap string json) (n : Notes)
    (w : World) : gmap string json * World * list Event :=
  let doc' := <["notes" := notes_dict n]> doc in
  let '(w', t) := save_progress loc (JObj doc') w in
  (doc', w', t).

Definition msg_reset_warning : string :=
  "⚠️ **WARNING:** This will permanently delete all your progress and notes!".

Definition msg_reset_done : string := "✅ Progress has been reset!".

(** Lines 784 to 805.  The boolean of the result tells whether the block
    ended in [st.rerun()]. *)
Definition reset_block (ui : UI) (s : SessionState) (w : World)
  : M (SessionState * World * bool) :=
  match show_reset_confirmation s with
  | None => fail AttributeError "show_reset_confirmation"
  | Some false =>
      if button_reset ui then
        ret (mkSession (progress s) (notes s) (Some true), w, true)
      else ret (s, w, false)
  | Some true =>
      do _ <- emit (EvNotice Warning msg_reset_warning);
      if button_yes ui then
        do _ <- emit EvExists;
        do w' <- match local_file w with
              | Some _ =>
                  do _ <- emit EvRemoveLocal;
                  match local_remove w with
                  | Some e => (Raise e, [])
                  | None => ret (with_local_file None w)
                  end
              | None => ret w
              end;
        do _ <- emit (EvNotice Success msg_reset_done);
        ret (cleared, w', true)
      else if button_cancel ui then
        ret (mkSession (progress s) (notes s) (Some false), w, true)
      else ret (s, w, false)
  end.

(** One run of the script, top to bottom: the session and the environment
    it leaves, and whether it ended in a rerun.  The overview and the
    captions only display figures computed from the document; of the page's
    display calls the trace keeps the notices of the store and of the reset
    block. *)
Definition script_run (loc : string) (ui : UI) (s : SessionState)
    (w : World) : M (SessionState * World * bool) :=
  do s1 <- init_session loc w s;
  match progress s1, notes s1 with
  | Some (JObj doc), Some n =>
      let '(_, doc1) := render_page (checkbox ui) page doc in
      let n1 := edit_notes ui n in
      let '(doc2, w1, t) := autosave loc doc1 n1 w in
      do _ <- (Ok tt, t);
      reset_block ui
        (mkSession (Some (JObj doc2)) (Some n1) (show_reset_confirmation s1))
        w1
  | _, _ => fail AttributeError "object has no attribute 'get'"
  end.

End Session.
Import Session.

(** ** The specification's vocabulary

    Definitions that follow the words of the specification, to be compared
    with what the code computes. *)

Module Wording.

(** The flat keys of the catalogue, [{subsection_key}_{task_key}], as
    [calculate_section_progress] forms them. *)
Definition catalogue_keys : list string :=
  flat_map
    (fun '(_, subsections) =>
       flat_map
         (fun '(subsection_key, tasks) => map (full_key subsection_key) tasks)
         subsections)
    sections_data.

(** The keys of the check boxes the page draws. *)
Definition panel_keys (p : Panel) : list string :=
  map (fun kv => full_key (section_key p) (fst kv)) (subtasks p).

Definition page_keys : list string := flat_map (flat_map panel_keys) page.

(** [isComplete(taskKey)]: the flag of the key, absent meaning false. *)
Definition isComplete (progress : gmap string json) (key : string) : bool :=
  truthy (get_flag progress key).

(** The number of completed tasks of a subsection. *)
Definition completed_in (progress : gmap string json)
    (sub : string * list string) : Z :=
  Z.of_nat
    (length (List.filter (fun task => isComplete progress (full_key (fst sub) task))
               (snd sub))).

(** The number of tasks of a subsection. *)
Definition tasks_in (sub : string * list string) : Z :=
  Z.of_nat (length (snd sub)).

Definition sumZ (l : list Z) : Z := fold_right Z.add 0%Z l.

Definition sumQ (l : list Q) : Q := fold_right Qplus 0 l.

(** [subsectionRatio]: completed tasks over tasks, 0 for no tasks. *)
Definition subsectionRatio (progress : gmap string json)
    (sub : string * list string) : Q :=
  match snd sub with
  | [] => 0
  | _ => inject_Z (completed_in progress sub) / inject_Z (tasks_in sub)
  end.

(** [sectionRatio] as the specification words it: the unweighted mean of the
    subsection ratios (0 for a section without subsections). *)
Definition sectionRatio_mean (progress : gmap string json)
    (subsections : list (string * list string)) : Q :=
  match subsections with
  | [] => 0
  | _ =>
      sumQ (map (subsectionRatio progress) subsections)
        / inject_Z (Z.of_nat (length subsections))
  end.

(** The task-weighted ratio: all completed tasks of the section over all its
    tasks (0 for a section without tasks). *)
Definition sectionRatio_weighted (progress : gmap string json)
    (subsections : list (string * list string)) : Q :=
  let completed := sumZ (map (completed_in progress) subsections) in
  let tasks := sumZ (map tasks_in subsections) in
  if (0 <? tasks)%Z then inject_Z completed / inject_Z tasks else 0.

(** The task-weighted ratio over the flags the page collected for one
    section ([all_foundations_progress] and the like). *)
Definition page_ratio_weighted (all_progress : list (list (string * bool)))
  : Q :=
  let completed :=
    sumZ (map (fun items => Z.of_nat (length (List.filter snd items)))
            all_progress) in
  let tasks :=
    sumZ (map (fun items => Z.of_nat (length items)) all_progress) in
  if (0 <? tasks)%Z then inject_Z completed / inject_Z tasks else 0.

(** The section ratio the program shows for a main section: the looked-up
    percentage of [calculate_section_progress], as a fraction. *)
Definition section_ratio (progress : gmap string json) (main_section : string)
  : Q :=
  dict_get (fst (fst (calculate_section_progress progress))) main_section 0
    / 100.

Definition is_bool (v : json) : bool :=
  match v with JBool _ => true | _ => false end.

Definition is_str (v : json) : bool :=
  match v with JStr _ => true | _ => false end.

(** The [notes] record: exactly the three free-text fields. *)
Definition is_notes_record (v : json) : bool :=
  match v with
  | JObj m =>
      forallb
        (fun kv =>
           (String.eqb (fst kv) "to_learn" || String.eqb (fst kv) "in_progress"
            || String.eqb (fst kv) "completed") && is_str (snd kv))
        (map_to_list m)
      && (3 =? length (map_to_list m))%nat
  | _ => false
  end.

(** A Document containing only task keys known to the catalogue, each a
    boolean, plus the [notes] record. *)
Definition known_document (D : gmap string json) : bool :=
  forallb
    (fun kv =>
       if String.eqb (fst kv) "notes" then is_notes_record (snd kv)
       else existsb (String.eqb (fst kv)) catalogue_keys && is_bool (snd kv))
    (map_to_list D).

(** Every key of the catalogue is set to [true]. *)
Definition all_tasks_true (D : gmap string json) : Prop :=
  Forall (fun key => D !! key = Some (JBool true)) catalogue_keys.

(** The row of [sections_data] a panel of the page stands for: its section
    key and the keys of its tasks. *)
Definition panel_subsection (p : Panel) : string * list string :=
  (section_key p, map fst (subtasks p)).

(** The document holds, under the panel's keys, the flags in [flags]. *)
Definition stored (progress : gmap string json) (section_key : string)
    (flags : list (string * bool)) : Prop :=
  Forall (fun kv => progress !! full_key section_key (fst kv)
                    = Some (JBool (snd kv))) flags.

(** The flags a panel returned are those of its tasks, in order, and the
    document holds them. *)
Definition panel_stored (progress : gmap string json) (p : Panel)
    (flags : list (string * bool)) : Prop :=
  map fst flags = map fst (subtasks p) /\ stored progress (section_key p) flags.

(** What a box of the panel returns, given the document the panel starts
    from. *)
Definition tick (checkbox : string -> json -> string -> bool)
    (section_key : string) (progress : gmap string json)
    (kv : string * string) : string * bool :=
  (fst kv,
   checkbox (snd kv) (get_flag progress (full_key section_key (fst kv)))
     (full_key section_key (fst kv))).

(** The entry under [key] is a boolean. *)
Definition bool_at (progress : gmap string json) (key : string) : Prop :=
  exists b : bool, progress !! key = Some (JBool b).

(** A session document as a run of the script leaves it: every catalogue key
    holds a boolean, and the [notes] entry is the session's notes, three
    strings. *)
Definition settled (progress : gmap string json) (n : Notes) : Prop :=
  (forall key, In key catalogue_keys -> bool_at progress key)
  /\ progress !! "notes" = Some (notes_dict n)
  /\ exists a b c : string, n = mkNotes (JStr a) (JStr b) (JStr c).

(** The notes are three strings. *)
Definition text_notes (n : Notes) : Prop :=
  exists a b c : string, n = mkNotes (JStr a) (JStr b) (JStr c).

(** The local file can be read back once it has been written: before the
    write it is absent (the write creates it), or it can be read, or reading
    it fails only for what it holds (text that is no JSON, bytes that are no
    text), which the write replaces.  A file that cannot be opened for
    reading, for want of permission say, stays so when it is written. *)
Definition can_be_read_back (w : World) : bool :=
  match local_file w with
  | Some (Raise e) =>
      match exn_cls e with
      | JSONDecodeError | UnicodeDecodeError => true
      | _ => false
      end
  | _ => true
  end.

(** The toolkit hands back what it was given: a box returns its boolean
    default, a text area its text.  This is a run in which the user touches
    no widget. *)
Definition untouched (ui : UI) : Prop :=
  (forall label b key, checkbox ui label (JBool b) key = b)
  /\ (forall label text, text_area ui label (JStr text) = text).

(** Two environments that no load or save can tell apart: the same local
    file, the same outcomes of every call, the same object under every
    bucket and key. *)
Definition same_world (w1 w2 : World) : Prop :=
  local_file w1 = local_file w2
  /\ local_write w1 = local_write w2
  /\ local_remove w1 = local_remove w2
  /\ http_get w1 = http_get w2
  /\ s3_client w1 = s3_client w2
  /\ s3_get_error w1 = s3_get_error w2
  /\ s3_put_error w1 = s3_put_error w2
  /\ (forall bucket key, s3_store w1 bucket key = s3_store w2 bucket key).

End Wording.
Import Wording.

(** ** Concrete environments and documents *)

Module Examples.

Definition offline : exn := mkExn ConnectionError "connection refused".

Definition no_credentials : exn :=
  mkExn NoCredentialsError "Unable to locate credentials".

Definition no_such_key : exn := mkExn ClientError "NoSuchKey".

Definition permission_denied : exn :=
  mkExn PermissionError "[Errno 13] Permission denied".

(** No local file, the network down, no s3 credentials. *)
Definition bare_world : World :=
  {| local_file := None;
     local_write := None;
     local_remove := None;
     http_get := fun _ => Raise offline;
     s3_client := Some no_credentials;
     s3_get_error := None;
     s3_put_error := None;
     s3_store := fun _ _ => Raise no_such_key |}.

(** [{"linux_basic_commands": true}] *)
Definition one_task_done : gmap string json :=
  {[ "linux_basic_commands" := JBool true ]}.

(** [{"linux_basic_commands": true,
      "notes": {"to_learn": "ArgoCD", "in_progress": "", "completed": ""}}] *)
Definition one_task_with_notes : gmap string json :=
  <["notes" := notes_dict (mkNotes (JStr "ArgoCD") (JStr "") (JStr ""))]>
    one_task_done.

(** The local file holds [one_task_done]; the remote is unreachable. *)
Definition world_with_file : World :=
  with_local_file (Some (Ok (JObj one_task_done))) bare_world.

(** The local file holds the JSON text [[]]. *)
Definition world_with_list_file : World :=
  with_local_file (Some (Ok (JArr []))) bare_world.

Definition malformed : exn :=
  mkExn JSONDecodeError "Expecting value: line 1 column 1 (char 0)".

(** The local file holds text that is not JSON. *)
Definition world_with_malformed_file : World :=
  with_local_file (Some (Raise malformed)) bare_world.

(** The local file exists but cannot be opened. *)
Definition world_with_locked_file : World :=
  with_local_file (Some (Raise permission_denied)) bare_world.

(** The public URL serves [one_task_done]; there is no local file. *)
Definition world_with_remote : World :=
  {| local_file := None;
     local_write := None;
     local_remove := None;
     http_get := fun _ => Ok (JObj one_task_done);
     s3_client := Some no_credentials;
     s3_get_error := None;
     s3_put_error := None;
     s3_store := fun _ _ => Raise no_such_key |}.

(** The public URL serves the empty document [{}]. *)
Definition world_with_empty_remote : World :=
  {| local_file := None;
     local_write := None;
     local_remove := None;
     http_get := fun _ => Ok empty_dict;
     s3_client := Some no_credentials;
     s3_get_error := None;
     s3_put_error := None;
     s3_store := fun _ _ => Raise no_such_key |}.

(** The public URL serves [one_task_done], and the local backup holds it
    too. *)
Definition world_synced : World :=
  with_local_file (Some (Ok (JObj one_task_done))) world_with_remote.

(** Every task of "Linux Fundamentals" done, nothing else. *)
Definition linux_done : gmap string json :=
  list_to_map
    (map (fun task => (full_key "linux" task, JBool true))
       ["basic_commands"; "file_operations"; "permissions"; "text_processing";
        "process_mgmt"; "system_info"; "package_mgmt"; "user_mgmt";
        "cron_jobs"; "log_analysis"]).

(** Every key of the catalogue set to [true]. *)
Definition all_done : gmap string json :=
  list_to_map (map (fun key => (key, JBool true)) catalogue_keys).

(** The subsections of "foundations" in [sections_data]. *)
Definition foundations_subsections : list (string * list string) :=
  dict_get sections_data "foundations" [].

(** A document with a flag of a topic the catalogue no longer lists. *)
Definition with_legacy_key : gmap string json :=
  <["ansible_playbooks" := JBool true]> one_task_done.

(** The local file holds [with_legacy_key]; the remote is unreachable. *)
Definition world_with_legacy_file : World :=
  with_local_file (Some (Ok (JObj with_legacy_key))) bare_world.

(** A location with a scheme the store does not know. *)
Definition ftp_location : string := "ftp://example.org/dashboard_progress.json".

(** Nobody touches anything: every box keeps its default, every text area
    its value, no button is pressed. *)
Definition idle_checkbox (label : string) (value : json) (key : string)
  : bool := truthy value.

Definition idle_text_area (label : string) (value : json) : string :=
  match value with JStr t => t | _ => "" end.

(** The user confirms the reset. *)
Definition confirm_reset : UI :=
  {| checkbox := idle_checkbox;
     text_area := idle_text_area;
     button_reset := false;
     button_yes := true;
     button_cancel := false |}.

(** The user does nothing. *)
Definition idle : UI :=
  {| checkbox := idle_checkbox;
     text_area := idle_text_area;
     button_reset := false;
     button_yes := false;
     button_cancel := false |}.

(** A session showing the confirmation dialog, one task ticked. *)
Definition session_confirming : SessionState :=
  {| progress := Some (JObj one_task_done);
     notes := Some (mkNotes (JStr "") (JStr "") (JStr ""));
     show_reset_confirmation := Some true |}.

(** Every task done, empty notes, as a run of the script stores it. *)
Definition blank_notes : Notes := mkNotes (JStr "") (JStr "") (JStr "").

Definition all_done_with_notes : gmap string json :=
  <["notes" := notes_dict blank_notes]> all_done.

(** A session holding that document, the confirmation dialog not showing. *)
Definition session_all_done : SessionState :=
  {| progress := Some (JObj all_done_with_notes);
     notes := Some blank_notes;
     show_reset_confirmation := Some false |}.

(** The user presses "Reset Progress". *)
Definition press_reset : UI :=
  {| checkbox := idle_checkbox;
     text_area := idle_text_area;
     button_reset := true;
     button_yes := false;
     button_cancel := false |}.

(** An s3 location and an environment whose bucket is reachable and empty. *)
Definition s3_location : string := "s3://my-bucket/dashboard_progress.json".

Definition world_with_bucket : World :=
  {| local_file := None;
     local_write := None;
     local_remove := None;
     http_get := fun _ => Raise offline;
     s3_client := None;
     s3_get_error := None;
     s3_put_error := None;
     s3_store := fun _ _ => Raise no_such_key |}.

(** The same, but uploads are refused. *)
Definition access_denied : exn := mkExn ClientError "AccessDenied".

Definition world_with_readonly_bucket : World :=
  {| local_file := None;
     local_write := None;
     local_remove := None;
     http_get := fun _ => Raise offline;
     s3_client := None;
     s3_get_error := None;
     s3_put_error := Some access_denied;
     s3_store := fun _ _ => Raise no_such_key |}.

(** A panel of two tasks, and a document in which the first is done:
    [{"sub_a": true, "sub_b": false}]. *)
Definition ab_subtasks : list (string * string) :=
  [("a", "Task a"); ("b", "Task b")].

Definition a_done : gmap string json :=
  <["sub_a" := JBool true]> (<["sub_b" := JBool false]> ∅).

End Examples.
Import Examples.

(** * Properties *)

(** ** Handlers and location tests *)

Lemma except_Exception_all (e : exn) : except_Exception e = true.
Proof. destruct e as [c msg]; destruct c; reflexivity. Qed.

Lemma is_http_url_nonempty (loc : string) :
  is_http_url loc = true -> String.eqb loc "" = false.
Proof. destruct loc; [discriminate | reflexivity]. Qed.

Lemma is_s3_url_nonempty (loc : string) :
  is_s3_url loc = true -> String.eqb loc "" = false.
Proof. destruct loc; [discriminate | reflexivity]. Qed.

(** ** The local read block *)

Lemma read_local_trace (catches : exn -> bool) (w : World) :
  snd (read_local catches w)
  = match local_file w with
    | Some _ => [EvExists; EvReadLocal]
    | None => [EvExists]
    end.
Proof.
  unfold read_local.
  destruct (local_file w) as [[v | e] |]; [| destruct (catches e) |]; reflexivity.
Qed.

Lemma read_local_Exception (w : World) :
  fst (read_local except_Exception w)
  = Ok (match local_file w with Some (Ok v) => v | _ => empty_dict end).
Proof.
  unfold read_local.
  destruct (local_file w) as [[v | e] |]; try reflexivity.
  rewrite except_Exception_all; reflexivity.
Qed.

Lemma read_local_agrees (catches : exn -> bool) (w : World) (v : json) :
  fst (read_local catches w) = Ok v ->
  fst (read_local except_Exception w) = Ok v.
Proof.
  unfold read_local.
  destruct (local_file w) as [[v' | e] |]; try (intros H; exact H).
  rewrite except_Exception_all.
  destruct (catches e); [intros H; exact H | discriminate].
Qed.

(** ** Loading *)

(** C10: a non-empty location that is neither an http(s) nor an s3 url makes
    [load_progress] return [{}] at once, with an empty trace: the local file
    is neither tested for existence nor read, whatever it holds.  The empty
    location does consult the file: its trace starts with the existence
    test, and a readable file is returned. *)
Theorem load_progress_unknown_scheme (loc : string) (w : World) :
  loc <> "" ->
  is_http_url loc = false ->
  is_s3_url loc = false ->
  load_progress loc w = (Ok empty_dict, [])
  /\ (exists t, snd (load_progress "" w) = EvExists :: t)
  /\ (forall v, local_file w = Some (Ok v) ->
        load_progress "" w = (Ok v, [EvExists; EvReadLocal])).
Proof.
  intros Hne Hhttp Hs3.
  apply String.eqb_neq in Hne.
  split; [| split].
  - unfold load_progress. rewrite Hne, Hhttp, Hs3. reflexivity.
  - unfold load_progress; cbn [String.eqb].
    rewrite (surjective_pairing (read_local _ w)), read_local_trace; cbn [snd].
    destruct (local_file w); eexists; reflexivity.
  - intros v Hv. unfold load_progress, read_local; cbn [String.eqb].
    rewrite Hv. reflexivity.
Qed.

Lemma load_progress_unknown_scheme_witness :
  load_progress ftp_location world_with_file = (Ok empty_dict, [])
  /\ load_progress "" world_with_file
     = (Ok (JObj one_task_done), [EvExists; EvReadLocal]).
Proof.
  destruct (load_progress_unknown_scheme ftp_location world_with_file)
    as (H1 & _ & H3).
  - discriminate.
  - reflexivity.
  - reflexivity.
  - split; [exact H1 | apply H3; reflexivity].
Defined.

(** The notices of a trace, in order. *)
Lemma notices_read_local (catches : exn -> bool) (w : World) :
  filter (fun ev => is_notice ev = true) (snd (read_local catches w)) = [].
Proof.
  rewrite read_local_trace. destruct (local_file w); reflexivity.
Qed.

Lemma notices_s3_fetch (loc : string) (w : World) :
  filter (fun ev => is_notice ev = true) (snd (s3_fetch loc w)) = [].
Proof.
  unfold s3_fetch.
  destruct (parse_s3_url loc) as [[bucket key] | e]; [| reflexivity].
  destruct (s3_client w); reflexivity.
Qed.

(** The http branch after a failed fetch. *)
Lemma load_progress_http_failed (loc : string) (w : World) (e : exn) :
  is_http_url loc = true ->
  http_get w loc = Raise e ->
  load_progress loc w
  = (fst (read_local except_Exception w),
     EvHttpGet loc :: EvNotice Warning (msg_http_load loc e)
       :: snd (read_local except_Exception w)).
Proof.
  intros Hhttp Hget. unfold load_progress.
  rewrite (is_http_url_nonempty loc Hhttp), Hhttp, Hget, except_Exception_all.
  destruct (read_local except_Exception w); reflexivity.
Qed.

(** C3: with an http(s) location and a failed fetch (any exception of
    [requests.get], [raise_for_status] or [resp.json]), [load_progress]
    issues one warning and then runs the local read block: it returns what
    the local file parses to, and [{}] when the file is absent or unreadable.
    Its trace continues as the trace of the local case, and whenever the local
    case returns a value the fallback returns the same one. *)
Theorem http_failure_falls_back_to_local (loc : string) (w : World) (e : exn) :
  is_http_url loc = true ->
  http_get w loc = Raise e ->
  fst (load_progress loc w)
  = Ok (match local_file w with Some (Ok v) => v | _ => empty_dict end)
  /\ snd (load_progress loc w)
     = EvHttpGet loc :: EvNotice Warning (msg_http_load loc e)
         :: snd (load_progress "" w)
  /\ (forall v, fst (load_progress "" w) = Ok v ->
        fst (load_progress loc w) = Ok v).
Proof.
  intros Hhttp Hget.
  rewrite (load_progress_http_failed loc w e Hhttp Hget); cbn [fst snd].
  split; [apply read_local_Exception | split].
  - unfold load_progress at 1; cbn [String.eqb].
    rewrite !read_local_trace. reflexivity.
  - unfold load_progress; cbn [String.eqb]. apply read_local_agrees.
Qed.

Lemma http_failure_falls_back_to_local_witness :
  load_progress default_S3_LOCATION world_with_file
  = (Ok (JObj one_task_done),
     [EvHttpGet default_S3_LOCATION;
      EvNotice Warning (msg_http_load default_S3_LOCATION offline);
      EvExists; EvReadLocal]).
Proof.
  destruct (http_failure_falls_back_to_local
              default_S3_LOCATION world_with_file offline) as (H1 & H2 & _).
  - reflexivity.
  - reflexivity.
  - rewrite (surjective_pairing (load_progress _ _)), H1, H2. reflexivity.
Defined.

(** C1, as the code has it: whenever the location is not empty, and for the
    empty location whenever the local file is absent, parses, or fails with
    [JSONDecodeError] or [FileNotFoundError], [load_progress] returns a value
    and does not raise.  The value is whatever JSON value the consulted
    source parsed to, not necessarily a mapping: anything that is not [{}]
    comes unchanged from the local file or from the remote.  The only notice
    is the one warning issued when the remote fetch failed; failures of the
    local read are silent. *)
Theorem load_progress_returns_a_value (loc : string) (w : World) :
  (loc = "" -> forall e, local_file w = Some (Raise e) ->
     except_JSONDecodeError_FileNotFoundError e = true) ->
  exists v,
    fst (load_progress loc w) = Ok v
    /\ (v = empty_dict \/ local_file w = Some (Ok v) \/ http_get w loc = Ok v
        \/ fst (s3_fetch loc w) = Ok v)
    /\ filter (fun ev => is_notice ev = true) (snd (load_progress loc w))
       = if String.eqb loc "" then []
         else if is_http_url loc then
           match http_get w loc with
           | Ok _ => []
           | Raise e => [EvNotice Warning (msg_http_load loc e)]
           end
         else if is_s3_url loc then
           match fst (s3_fetch loc w) with
           | Ok _ => []
           | Raise e => [EvNotice Warning (msg_s3_load loc e)]
           end
         else [].
Proof.
  intros Hlocal.
  assert (Hfallback :
    exists v, fst (read_local except_Exception w) = Ok v
              /\ (v = empty_dict \/ local_file w = Some (Ok v))).
  { rewrite read_local_Exception.
    destruct (local_file w) as [[v | e] |]; eexists; split; eauto. }
  unfold load_progress.
  destruct (String.eqb loc "") eqn:Hloc.
  - apply String.eqb_eq in Hloc.
    rewrite notices_read_local.
    unfold read_local.
    destruct (local_file w) as [[v | e] |] eqn:Hfile.
    + exists v; cbn; auto.
    + rewrite (Hlocal Hloc e eq_refl). exists empty_dict; cbn; auto.
    + exists empty_dict; cbn; auto.
  - destruct (is_http_url loc) eqn:Hhttp.
    + destruct (http_get w loc) as [v | e] eqn:Hget.
      * exists v. repeat split; auto.
      * rewrite except_Exception_all.
        destruct Hfallback as (v & Hv & Hsrc).
        pose proof (notices_read_local except_Exception w) as Hn.
        destruct (read_local except_Exception w) as [r t]; cbn [fst snd] in *.
        exists v. repeat split; [assumption | tauto |].
        rewrite !filter_cons; cbn. exact (f_equal _ Hn).
    + destruct (is_s3_url loc) eqn:Hs3.
      * pose proof (notices_s3_fetch loc w) as Hn0.
        destruct (s3_fetch loc w) as [[v | e] t0]; cbn [fst snd] in *.
        -- exists v. repeat split; auto.
        -- rewrite except_Exception_all.
           destruct Hfallback as (v & Hv & Hsrc).
           pose proof (notices_read_local except_Exception w) as Hn.
           destruct (read_local except_Exception w) as [r t]; cbn [fst snd] in *.
           exists v. repeat split; [assumption | tauto |].
           rewrite filter_app, Hn0, filter_cons; cbn. exact (f_equal _ Hn).
      * exists empty_dict. repeat split; auto.
Qed.

Lemma load_progress_returns_a_value_witness :
  exists v, fst (load_progress "" world_with_malformed_file) = Ok v.
Proof.
  destruct (load_progress_returns_a_value "" world_with_malformed_file)
    as (v & Hv & _ & _).
  - intros _ e He. injection He as <-. reflexivity.
  - exists v. exact Hv.
Defined.

(** C1 as worded fails: with no remote configured and a local file that holds
    the JSON text [[]], [load_progress] returns that list, which is no
    mapping. *)
Lemma load_progress_may_return_a_list :
  fst (load_progress "" world_with_list_file) = Ok (JArr [])
  /\ ~ (exists m : gmap string json,
          fst (load_progress "" world_with_list_file) = Ok (JObj m)).
Proof.
  split; [reflexivity |].
  intros [m Hm]. discriminate Hm.
Qed.

(** The local case lets any other failure of the read through: a file that
    exists but cannot be opened makes [load_progress] raise, where the two
    fallback branches ([except Exception]) return [{}]. *)
Lemma load_progress_local_read_error_escapes :
  fst (load_progress "" world_with_locked_file) = Raise permission_denied
  /\ fst (load_progress default_S3_LOCATION world_with_locked_file)
     = Ok empty_dict.
Proof. split; reflexivity. Qed.

(** ** Saving *)

Lemma write_local_first (data : json) (w : World) :
  exists t, snd (write_local data w) = EvWriteLocal data :: t.
Proof.
  unfold write_local.
  destruct (local_write w) as [e |]; [destruct (except_Exception e) |];
    eexists; reflexivity.
Qed.

Lemma write_local_ok (data : json) (w : World) :
  local_write w = None ->
  write_local data w = (with_local_file (Some (Ok data)) w, [EvWriteLocal data]).
Proof. intros H. unfold write_local. rewrite H. reflexivity. Qed.

Lemma write_local_failed (data : json) (w : World) (e : exn) :
  local_write w = Some e ->
  write_local data w
  = (w, [EvWriteLocal data; EvNotice Warning (msg_local_write e)]).
Proof.
  intros H. unfold write_local. rewrite H, except_Exception_all. reflexivity.
Qed.

(** The upload looks at the s3 fields only. *)
Lemma s3_upload_trace_local (loc : string) (data : json) (w1 w2 : World) :
  s3_client w1 = s3_client w2 ->
  s3_put_error w1 = s3_put_error w2 ->
  snd (s3_upload loc data w1) = snd (s3_upload loc data w2).
Proof.
  intros Hc Hp. unfold s3_upload.
  destruct (parse_s3_url loc) as [[bucket key] | e]; [| reflexivity].
  rewrite Hc, Hp.
  destruct (s3_client w2); [reflexivity |].
  destruct (s3_put_error w2); reflexivity.
Qed.

Lemma save_progress_split (loc : string) (data : json) (w : World) :
  exists rest,
    snd (save_progress loc data w) = (snd (write_local data w) ++ rest)%list
    /\ snd (save_progress loc data (with_local_write None w))
       = (EvWriteLocal data :: rest)%list.
Proof.
  unfold save_progress.
  rewrite (write_local_ok data (with_local_write None w) eq_refl).
  destruct (write_local data w) as [w1 t1] eqn:Hw; cbn [snd].
  assert (Hc : s3_client w1 = s3_client w /\ s3_put_error w1 = s3_put_error w).
  { unfold write_local in Hw.
    destruct (local_write w) as [e |]; [destruct (except_Exception e) |];
      injection Hw as <- <-; split; reflexivity. }
  destruct Hc as [Hc Hp].
  destruct (String.eqb loc "").
  { exists []. rewrite app_nil_r. split; reflexivity. }
  destruct (is_http_url loc).
  { exists [EvNotice Info msg_http_readonly]. split; reflexivity. }
  destruct (is_s3_url loc).
  - exists (snd (s3_upload loc data w)).
    rewrite (surjective_pairing (s3_upload loc data w1)).
    rewrite (surjective_pairing (s3_upload loc data (with_local_file _ _))).
    cbn [snd]. split.
    + f_equal. apply s3_upload_trace_local; assumption.
    + cbn [app]. f_equal. apply s3_upload_trace_local; reflexivity.
  - exists []. rewrite app_nil_r. split; reflexivity.
Qed.

Lemma save_progress_local_file (loc : string) (data : json) (w : World) :
  local_write w = None ->
  local_file (fst (save_progress loc data w)) = Some (Ok data).
Proof.
  intros Hok. unfold save_progress. rewrite (write_local_ok _ _ Hok).
  destruct (String.eqb loc ""); [reflexivity |].
  destruct (is_http_url loc); [reflexivity |].
  destruct (is_s3_url loc); [| reflexivity].
  unfold s3_upload.
  destruct (parse_s3_url loc) as [[bucket key] | e]; [| reflexivity].
  cbn [s3_client with_local_file s3_put_error].
  destruct (s3_client w); [reflexivity |].
  destruct (s3_put_error w); reflexivity.
Qed.

(** C4: [save_progress] starts with the local backup, at every location.
    When that write succeeds the file holds the document.  When it fails, a
    warning follows the attempt and the rest of the trace is exactly what it
    is in the environment where the write succeeds, so the remote step is not
    held back.  Under an http(s) location the remote step is the
    informational notice alone: the trace holds no [put_object] and the
    bucket is what it was. *)
Theorem save_progress_backup_first_http_read_only
    (loc : string) (data : json) (w : World) :
  (exists t, snd (save_progress loc data w) = EvWriteLocal data :: t)
  /\ (local_write w = None ->
        local_file (fst (save_progress loc data w)) = Some (Ok data))
  /\ (forall e, local_write w = Some e ->
        exists rest,
          snd (save_progress loc data w)
          = EvWriteLocal data :: EvNotice Warning (msg_local_write e) :: rest
          /\ snd (save_progress loc data (with_local_write None w))
             = EvWriteLocal data :: rest)
  /\ (is_http_url loc = true ->
        snd (save_progress loc data w)
        = (snd (write_local data w) ++ [EvNotice Info msg_http_readonly])%list
        /\ filter (fun ev => is_network_write ev = true)
             (snd (save_progress loc data w)) = []
        /\ s3_store (fst (save_progress loc data w)) = s3_store w).
Proof.
  split; [| split; [| split]].
  - destruct (save_progress_split loc data w) as (rest & Hs & _).
    destruct (write_local_first data w) as (t & Ht).
    rewrite Hs, Ht. eexists; reflexivity.
  - apply save_progress_local_file.
  - intros e He.
    destruct (save_progress_split loc data w) as (rest & Hs & Hs').
    exists rest. rewrite Hs, Hs', (write_local_failed _ _ _ He).
    split; reflexivity.
  - intros Hhttp. unfold save_progress.
    rewrite (is_http_url_nonempty _ Hhttp), Hhttp.
    unfold write_local.
    destruct (local_write w) as [e |]; [rewrite except_Exception_all |];
      repeat split; reflexivity.
Qed.

(** ** Saving, then loading *)

Lemma parse_s3_url_ok (loc : string) :
  is_s3_url loc = true -> exists bucket key, parse_s3_url loc = Ok (bucket, key).
Proof.
  unfold is_s3_url, parse_s3_url. intros ->. eexists _, _. reflexivity.
Qed.

(** What the remote fields of the environment are after a save. *)
Lemma save_progress_remote (loc : string) (data : json) (w : World) :
  let w' := fst (save_progress loc data w) in
  http_get w' = http_get w
  /\ s3_client w' = s3_client w
  /\ s3_get_error w' = s3_get_error w
  /\ s3_put_error w' = s3_put_error w.
Proof.
  unfold save_progress, write_local, s3_upload.
  destruct (local_write w) as [e |]; [destruct (except_Exception e) |];
    (destruct (String.eqb loc ""); [cbn; auto |]);
    (destruct (is_http_url loc); [cbn; auto |]);
    (destruct (is_s3_url loc); [| cbn; auto]);
    (destruct (parse_s3_url loc) as [[bucket key] | e']; [| cbn; auto]);
    cbn [s3_client with_local_file s3_put_error];
    (destruct (s3_client w) eqn:Hc; [cbn; auto |]);
    (destruct (s3_put_error w) eqn:Hp; cbn; auto).
Qed.

(** The object a successful upload leaves in the bucket. *)
Lemma save_progress_s3_store (loc bucket key : string) (data : json) (w : World) :
  is_http_url loc = false ->
  is_s3_url loc = true ->
  parse_s3_url loc = Ok (bucket, key) ->
  s3_client w = None ->
  s3_put_error w = None ->
  s3_store (fst (save_progress loc data w)) bucket key = Ok data.
Proof.
  intros Hhttp Hs3 Hparse Hc Hp.
  unfold save_progress, write_local, s3_upload.
  rewrite (is_s3_url_nonempty _ Hs3), Hhttp, Hs3, Hparse.
  destruct (local_write w) as [e |]; [destruct (except_Exception e) |];
    cbn [s3_client with_local_file s3_put_error]; rewrite Hc, Hp;
    cbn; rewrite !String.eqb_refl; reflexivity.
Qed.

(** When the upload did not change the bucket, the fetch sees what it saw. *)
Lemma save_progress_s3_store_kept (loc : string) (data : json) (w : World) :
  (s3_client w <> None \/ s3_put_error w <> None) ->
  s3_store (fst (save_progress loc data w)) = s3_store w.
Proof.
  intros Hfail.
  unfold save_progress, write_local, s3_upload.
  destruct (local_write w) as [e |]; [destruct (except_Exception e) |];
    (destruct (String.eqb loc ""); [reflexivity |]);
    (destruct (is_http_url loc); [reflexivity |]);
    (destruct (is_s3_url loc); [| reflexivity]);
    (destruct (parse_s3_url loc) as [[bucket key] | e']; [| reflexivity]);
    cbn [s3_client with_local_file s3_put_error];
    (destruct (s3_client w) eqn:Hc; [reflexivity |]);
    (destruct (s3_put_error w) eqn:Hp; [reflexivity |]);
    destruct Hfail; congruence.
Qed.

Lemma s3_fetch_value (loc : string) (w : World) :
  fst (s3_fetch loc w)
  = match parse_s3_url loc with
    | Raise e => Raise e
    | Ok (bucket, key) =>
        match s3_client w with
        | Some e => Raise e
        | None => s3_get_object w bucket key
        end
    end.
Proof.
  unfold s3_fetch.
  destruct (parse_s3_url loc) as [[bucket key] | e]; [| reflexivity].
  destruct (s3_client w); reflexivity.
Qed.

Lemma load_progress_s3 (loc : string) (w : World) :
  is_http_url loc = false ->
  is_s3_url loc = true ->
  fst (load_progress loc w)
  = match fst (s3_fetch loc w) with
    | Ok v => Ok v
    | Raise _ =>
        Ok (match local_file w with Some (Ok v) => v | _ => empty_dict end)
    end.
Proof.
  intros Hhttp Hs3. unfold load_progress.
  rewrite (is_s3_url_nonempty _ Hs3), Hhttp, Hs3.
  destruct (s3_fetch loc w) as [[v | e] t0]; [reflexivity |].
  rewrite except_Exception_all.
  rewrite <- read_local_Exception.
  destruct (read_local except_Exception w); reflexivity.
Qed.

(** C5, as the code has it: [load_progress] after [save_progress D] returns
    [D] when the local write succeeds, the local file can be read back, and
    the location is empty or its remote fetch fails; and when the location is
    an s3 url whose client, upload and download all work.  This holds for
    every JSON value [D], in particular for a Document of known keys and
    notes. *)
Theorem save_then_load_roundtrip (loc : string) (D : json) (w : World) :
  (local_write w = None
   /\ can_be_read_back w = true
   /\ (loc = ""
       \/ (is_http_url loc = true /\ returns (http_get w loc) = false)
       \/ (is_http_url loc = false /\ is_s3_url loc = true
           /\ returns (fst (s3_fetch loc w)) = false)))
  \/ (is_http_url loc = false /\ is_s3_url loc = true
      /\ s3_client w = None /\ s3_put_error w = None /\ s3_get_error w = None) ->
  fst (load_progress loc (fst (save_progress loc D w))) = Ok D.
Proof.
  intros H.
  pose proof (save_progress_remote loc D w) as (Hh & Hc & Hg & Hp).
  pose proof (save_progress_local_file loc D w) as Hfile.
  destruct H as [(Hok & _ & [-> | [(Hhttp & Hfail) | (Hhttp & Hs3 & Hfail)]])
                | (Hhttp & Hs3 & Hcl & Hput & Hget)].
  - unfold load_progress, read_local; cbn [String.eqb].
    rewrite (Hfile Hok). reflexivity.
  - destruct (http_get w loc) as [v | e] eqn:Hg0; [discriminate |].
    rewrite (load_progress_http_failed loc _ e Hhttp)
      by (rewrite Hh; exact Hg0).
    cbn [fst]. rewrite read_local_Exception, (Hfile Hok). reflexivity.
  - rewrite (load_progress_s3 _ _ Hhttp Hs3).
    rewrite (Hfile Hok).
    destruct (parse_s3_url_ok _ Hs3) as (bucket & key & Hparse).
    rewrite s3_fetch_value, Hparse in Hfail |- *.
    rewrite Hc. destruct (s3_client w) as [e |] eqn:Hcl; [reflexivity |].
    unfold s3_get_object in *. rewrite Hg.
    destruct (s3_get_error w) as [e |] eqn:Hget; [reflexivity |].
    destruct (s3_put_error w) as [e |] eqn:Hput.
    + rewrite save_progress_s3_store_kept by (right; congruence).
      destruct (s3_store w bucket key); [discriminate | reflexivity].
    + rewrite (save_progress_s3_store loc bucket key) by assumption.
      reflexivity.
  - rewrite (load_progress_s3 _ _ Hhttp Hs3).
    destruct (parse_s3_url_ok _ Hs3) as (bucket & key & Hparse).
    rewrite s3_fetch_value, Hparse, Hc, Hcl.
    unfold s3_get_object. rewrite Hg, Hget.
    rewrite (save_progress_s3_store loc bucket key) by assumption.
    reflexivity.
Qed.

Lemma save_then_load_roundtrip_witness :
  known_document one_task_with_notes = true
  /\ local_file world_with_malformed_file = Some (Raise malformed)
  /\ can_be_read_back world_with_malformed_file = true
  /\ fst (load_progress ""
            (fst (save_progress "" (JObj one_task_with_notes)
                    world_with_malformed_file)))
     = Ok (JObj one_task_with_notes).
Proof.
  split; [vm_compute; reflexivity |].
  split; [reflexivity |]. split; [reflexivity |].
  apply save_then_load_roundtrip.
  left. split; [reflexivity |]. split; [reflexivity | left; reflexivity].
Defined.

(** The condition on the local file leaves out the file that can be written
    but not opened for reading. *)
Lemma locked_file_is_not_read_back :
  local_write world_with_locked_file = None
  /\ can_be_read_back world_with_locked_file = false.
Proof. split; reflexivity. Qed.

(** C5 as worded fails at the default location: the save writes only the
    local backup, the load fetches the public URL first, so a reachable
    remote that serves [{}] is what comes back, whatever was saved. *)
Lemma reachable_remote_breaks_roundtrip :
  known_document one_task_with_notes = true
  /\ fst (load_progress default_S3_LOCATION
            (fst (save_progress default_S3_LOCATION (JObj one_task_with_notes)
                    world_with_empty_remote)))
     = Ok empty_dict
  /\ Ok empty_dict <> Ok (JObj one_task_with_notes).
Proof.
  split; [vm_compute; reflexivity |].
  split; [reflexivity |].
  intros H.
  apply (f_equal (fun r => match r with
                           | Ok (JObj m) => m !! "linux_basic_commands"
                           | _ => None
                           end)) in H.
  vm_compute in H. discriminate H.
Qed.

(** ** Reset *)

Lemma read_local_no_file (catches : exn -> bool) (w : World) :
  local_file w = None -> fst (read_local catches w) = Ok empty_dict.
Proof. intros H. unfold read_local. rewrite H. reflexivity. Qed.

(** What a load returns when there is no local file. *)
Lemma load_progress_no_file (loc : string) (w : World) :
  local_file w = None ->
  fst (load_progress loc w)
  = if String.eqb loc "" then Ok empty_dict
    else if is_http_url loc then
      match http_get w loc with Ok v => Ok v | Raise _ => Ok empty_dict end
    else if is_s3_url loc then
      match fst (s3_fetch loc w) with Ok v => Ok v | Raise _ => Ok empty_dict end
    else Ok empty_dict.
Proof.
  intros Hfile. unfold load_progress.
  destruct (String.eqb loc ""); [apply read_local_no_file, Hfile |].
  destruct (is_http_url loc).
  { destruct (http_get w loc) as [v | e]; [reflexivity |].
    rewrite except_Exception_all.
    rewrite <- (read_local_no_file except_Exception w Hfile).
    destruct (read_local except_Exception w); reflexivity. }
  destruct (is_s3_url loc); [| reflexivity].
  destruct (s3_fetch loc w) as [[v | e] t0]; [reflexivity |].
  rewrite except_Exception_all.
  rewrite <- (read_local_no_file except_Exception w Hfile).
  destruct (read_local except_Exception w); reflexivity.
Qed.

(** C9, as the code has it: the confirmed reset, when [os.remove] does not
    fail, leaves no local file and an empty session and ends in a rerun.  The
    load of that rerun returns [{}] when the location is empty or of an
    unknown scheme, or when the remote fetch fails; when the remote fetch
    succeeds it returns what the remote serves, which the reset did not
    touch. *)
Theorem reset_then_load (loc : string) (ui : UI) (s : SessionState) (w : World) :
  show_reset_confirmation s = Some true ->
  button_yes ui = true ->
  (local_file w = None \/ local_remove w = None) ->
  exists w' t,
    reset_block ui s w = (Ok (cleared, w', true), t)
    /\ local_file w' = None
    /\ http_get w' = http_get w
    /\ (forall l, s3_fetch l w' = s3_fetch l w)
    /\ fst (load_progress loc w')
       = if String.eqb loc "" then Ok empty_dict
         else if is_http_url loc then
           match http_get w loc with Ok v => Ok v | Raise _ => Ok empty_dict end
         else if is_s3_url loc then
           match fst (s3_fetch loc w) with
           | Ok v => Ok v
           | Raise _ => Ok empty_dict
           end
         else Ok empty_dict.
Proof.
  intros Hshow Hyes Hrm.
  assert (Hblock : exists w' t,
            reset_block ui s w = (Ok (cleared, w', true), t)
            /\ local_file w' = None /\ http_get w' = http_get w
            /\ (forall l, s3_fetch l w' = s3_fetch l w)).
  { unfold reset_block. rewrite Hshow, Hyes.
    destruct (local_file w) as [f |] eqn:Hfile.
    - destruct Hrm as [Hrm | Hrm]; [discriminate |].
      rewrite Hrm. eexists _, _. cbn. repeat split; reflexivity.
    - eexists _, _. cbn. repeat split; solve [exact Hfile | reflexivity]. }
  destruct Hblock as (w' & t & Hb & Hfile & Hh & Hs).
  exists w', t. repeat split; try assumption.
  rewrite (load_progress_no_file loc w' Hfile), Hh, Hs. reflexivity.
Qed.

Lemma reset_then_load_witness :
  exists w' t,
    reset_block confirm_reset session_confirming world_with_file
    = (Ok (cleared, w', true), t)
    /\ local_file w' = None
    /\ fst (load_progress "" w') = Ok empty_dict.
Proof.
  destruct (reset_then_load "" confirm_reset session_confirming world_with_file)
    as (w' & t & Hb & Hf & _ & _ & Hl).
  - reflexivity.
  - reflexivity.
  - right; reflexivity.
  - exists w', t. repeat split; assumption.
Defined.

(** C9 as worded fails at the default location: the reset removes the local
    backup only, and the load of the rerun fetches the public URL, which
    still serves the document. *)
Lemma reset_then_load_returns_remote :
  fst (reset_block confirm_reset session_confirming world_synced)
  = Ok (cleared, with_local_file None world_synced, true)
  /\ fst (load_progress default_S3_LOCATION (with_local_file None world_synced))
     = Ok (JObj one_task_done)
  /\ Ok (JObj one_task_done) <> Ok empty_dict.
Proof.
  split; [reflexivity |]. split; [reflexivity |].
  intros H.
  apply (f_equal (fun r => match r with
                           | Ok (JObj m) => m !! "linux_basic_commands"
                           | _ => None
                           end)) in H.
  vm_compute in H. discriminate H.
Qed.

(** ** Counting *)

Lemma sum_values_from (items : list (string * bool)) (a : Z) :
  fold_left (fun (acc : Z) (kv : string * bool) =>
               if snd kv then (acc + 1)%Z else acc) items a
  = (a + Z.of_nat (length (List.filter snd items)))%Z.
Proof.
  revert a. induction items as [| [k b] items IH]; intros a; cbn [fold_left].
  - cbn. lia.
  - rewrite IH. cbn [List.filter snd]. destruct b; cbn [length]; lia.
Qed.

Lemma sum_values_count (items : list (string * bool)) :
  sum_values items = Z.of_nat (length (List.filter snd items)).
Proof. unfold sum_values. rewrite sum_values_from. lia. Qed.

Lemma sum_values_bounds (items : list (string * bool)) :
  (0 <= sum_values items <= len items)%Z.
Proof.
  rewrite sum_values_count. unfold len.
  pose proof (List.filter_length_le snd items). lia.
Qed.

Lemma fold_left_add_sumZ (l : list Z) (a : Z) :
  fold_left Z.add l a = (a + sumZ l)%Z.
Proof.
  revert a. induction l as [| x l IH]; intros a; cbn [fold_left sumZ fold_right].
  - lia.
  - rewrite IH. unfold sumZ. lia.
Qed.

Lemma count_tasks_spec (progress : gmap string json) (subsection_key : string)
    (tasks : list string) (c t : Z) :
  count_tasks progress subsection_key tasks (c, t)
  = ((c + completed_in progress (subsection_key, tasks))%Z,
     (t + tasks_in (subsection_key, tasks))%Z).
Proof.
  unfold count_tasks, completed_in, tasks_in; cbn [fst snd].
  revert c t. induction tasks as [| task tasks IH]; intros c t.
  - cbn. f_equal; lia.
  - cbn [fold_left]. rewrite IH. cbn [List.filter length].
    unfold isComplete.
    destruct (truthy (get_flag progress (full_key subsection_key task)));
      cbn [length]; f_equal; lia.
Qed.

Lemma count_section_from (progress : gmap string json)
    (subsections : list (string * list string)) (acc : Z * Z) :
  fold_left
    (fun acc '(subsection_key, tasks) =>
       count_tasks progress subsection_key tasks acc)
    subsections acc
  = ((fst acc + sumZ (map (completed_in progress) subsections))%Z,
     (snd acc + sumZ (map tasks_in subsections))%Z).
Proof.
  revert acc.
  induction subsections as [| [subsection_key tasks] subsections IH];
    intros [c t]; cbn [fold_left map sumZ fold_right fst snd].
  - f_equal; lia.
  - rewrite IH, count_tasks_spec. cbn [fst snd]. unfold sumZ. f_equal; lia.
Qed.

Lemma count_section_spec (progress : gmap string json)
    (subsections : list (string * list string)) :
  count_section progress subsections
  = (sumZ (map (completed_in progress) subsections),
     sumZ (map tasks_in subsections)).
Proof. unfold count_section. rewrite count_section_from. reflexivity. Qed.

(** ** Ratios *)

Lemma inject_Z_pos (n : Z) : (0 < n)%Z -> 0 < inject_Z n.
Proof. intros H. change 0 with (inject_Z 0). rewrite <- Zlt_Qlt. exact H. Qed.

Lemma percent_scale (q : Q) : q * 100 / 100 == q.
Proof. field. Qed.

Lemma fraction_bounds (s n : Z) :
  (0 <= s <= n)%Z -> (0 < n)%Z ->
  0 <= inject_Z s / inject_Z n /\ inject_Z s / inject_Z n <= 1.
Proof.
  intros [H0 H1] Hn. pose proof (inject_Z_pos n Hn) as Hq. split.
  - apply Qle_shift_div_l; [exact Hq |].
    rewrite Qmult_0_l. change 0 with (inject_Z 0). rewrite <- Zle_Qle. exact H0.
  - apply Qle_shift_div_r; [exact Hq |].
    rewrite Qmult_1_l. rewrite <- Zle_Qle. exact H1.
Qed.

Lemma percent_as_fraction (c t : Z) :
  percent c t / 100 == if (0 <? t)%Z then inject_Z c / inject_Z t else 0.
Proof.
  unfold percent. destruct (0 <? t)%Z eqn:Ht.
  - apply percent_scale.
  - reflexivity.
Qed.

Lemma len_pos {A} (l : list A) : l <> [] -> (0 < len l)%Z.
Proof. unfold len. destruct l; [congruence | cbn [length]; lia]. Qed.

Lemma subtask_loop_length (checkbox : string -> json -> string -> bool)
    (section_key : string) (subtasks : list (string * string))
    (progress : gmap string json) :
  length (fst (subtask_loop checkbox section_key subtasks progress))
  = length subtasks.
Proof.
  revert progress.
  induction subtasks as [| [k name] subtasks IH]; intros progress;
    cbn [subtask_loop]; [reflexivity |].
  unfold persistent_checkbox.
  specialize (IH (<[full_key section_key k :=
                     JBool (checkbox name (get_flag progress (full_key section_key k))
                              (full_key section_key k))]> progress)).
  destruct (subtask_loop checkbox section_key subtasks _) as [sp p2].
  cbn [fst length] in *. congruence.
Qed.

(** ** The section percentages *)

Lemma dict_get_rows {A B} (f : B -> A) (rows : list (string * B))
    (key : string) (default : A) (b : B) :
  NoDup (map fst rows) ->
  In (key, b) rows ->
  dict_get (map (fun row => (fst row, f (snd row))) rows) key default = f b.
Proof.
  induction rows as [| [k x] rows IH]; intros Hnd Hin; [destruct Hin |].
  cbn [map fst snd dict_get]. cbn [map fst] in Hnd.
  apply NoDup_cons in Hnd as [Hk Hnd].
  destruct Hin as [Heq | Hin].
  - injection Heq as -> ->. rewrite String.eqb_refl. reflexivity.
  - destruct (String.eqb k key) eqn:Hkey.
    + apply String.eqb_eq in Hkey. subst k. exfalso. apply Hk.
      apply list_elem_of_In. apply (in_map fst _ _ Hin).
    + apply IH; assumption.
Qed.

Lemma calculate_over_get (data : list (string * list (string * list string)))
    (progress : gmap string json) (main_section : string)
    (subsections : list (string * list string)) :
  NoDup (map fst data) ->
  In (main_section, subsections) data ->
  dict_get (fst (fst (calculate_over data progress))) main_section 0
  = percent (fst (count_section progress subsections))
            (snd (count_section progress subsections)).
Proof.
  intros Hnd Hin. unfold calculate_over. cbn [fst].
  rewrite map_map.
  rewrite (map_ext _ (fun row => (fst row,
             (fun subs => percent (fst (count_section progress subs))
                                  (snd (count_section progress subs)))
               (snd row)))).
  - apply (dict_get_rows
             (fun subs => percent (fst (count_section progress subs))
                                  (snd (count_section progress subs)))
             data main_section 0 subsections); assumption.
  - intros [s subs]. cbn [fst snd].
    destruct (count_section progress subs); reflexivity.
Qed.

Lemma sections_data_NoDup : NoDup (map fst sections_data).
Proof. apply (bool_decide_unpack _). vm_compute. exact I. Qed.

(** The ratio shown for a main section is the task-weighted one. *)
Lemma section_ratio_weighted (progress : gmap string json)
    (main_section : string) (subsections : list (string * list string)) :
  In (main_section, subsections) sections_data ->
  section_ratio progress main_section
  == sectionRatio_weighted progress subsections.
Proof.
  intros Hin. unfold section_ratio, calculate_section_progress.
  rewrite (calculate_over_get _ _ _ _ sections_data_NoDup Hin).
  rewrite count_section_spec. cbn [fst snd].
  apply percent_as_fraction.
Qed.

(** ** The overall percentage *)

Lemma sections_data_names :
  map fst sections_data = ["foundations"; "cicd"; "cloud"; "monitoring"; "sre"].
Proof. reflexivity. Qed.

Lemma sections_have_tasks :
  Forall (fun row : string * list (string * list string) =>
            (0 < sumZ (map tasks_in (snd row)))%Z) sections_data.
Proof. apply (bool_decide_unpack _). vm_compute. exact I. Qed.

Lemma completed_all (progress : gmap string json) (sub : string * list string) :
  Forall (fun task => progress !! full_key (fst sub) task = Some (JBool true))
    (snd sub) ->
  completed_in progress sub = tasks_in sub.
Proof.
  unfold completed_in, tasks_in. destruct sub as [k tasks]; cbn [fst snd].
  induction 1 as [| task tasks Htask _ IH]; [reflexivity |].
  cbn [List.filter]. unfold isComplete at 1, get_flag. rewrite Htask.
  cbn [truthy length]. lia.
Qed.

Lemma all_tasks_true_section (progress : gmap string json)
    (main_section : string) (subsections : list (string * list string)) :
  all_tasks_true progress ->
  In (main_section, subsections) sections_data ->
  map (completed_in progress) subsections = map tasks_in subsections.
Proof.
  unfold all_tasks_true, catalogue_keys. intros Hall Hin.
  rewrite Forall_flat_map in Hall.
  rewrite List.Forall_forall in Hall. specialize (Hall _ Hin). cbn beta iota in Hall.
  rewrite Forall_flat_map in Hall.
  apply map_ext_Forall.
  eapply List.Forall_impl; [| exact Hall].
  intros [k tasks] Hsub. apply completed_all. cbn [fst snd].
  rewrite Forall_map in Hsub. exact Hsub.
Qed.

Lemma all_tasks_true_ratio (progress : gmap string json) :
  all_tasks_true progress ->
  Forall (fun main_section => section_ratio progress main_section == 1)
    (map fst sections_data).
Proof.
  intros Hall. rewrite Forall_map. apply List.Forall_forall.
  intros [main_section subsections] Hin. cbn [fst].
  rewrite (section_ratio_weighted _ _ _ Hin).
  unfold sectionRatio_weighted.
  rewrite (all_tasks_true_section _ _ _ Hall Hin).
  pose proof sections_have_tasks as Hpos.
  rewrite List.Forall_forall in Hpos. specialize (Hpos _ Hin). cbn [snd] in Hpos.
  destruct (Z.ltb_spec 0 (sumZ (map tasks_in subsections))) as [Hlt | Hge]; [| lia].
  pose proof (inject_Z_pos _ Hlt) as Hq.
  field. intros H0. rewrite H0 in Hq. exact (Qlt_irrefl 0 Hq).
Qed.

Lemma overall_bar_mean (progress : gmap string json) :
  overall_bar progress
  == sumQ (map (section_ratio progress) (map fst sections_data))
       / inject_Z (Z.of_nat (length sections_data)).
Proof.
  rewrite sections_data_names.
  change (length sections_data) with 5%nat.
  unfold overall_bar, overall, section_ratio.
  destruct (calculate_section_progress progress) as [[progress_data totals_data] counts_data].
  cbn [fst map sumQ fold_right].
  change (inject_Z (Z.of_nat 5)) with 5.
  field.
Qed.

(** C7: the fraction behind the top progress bar is the arithmetic mean of the
    ratios of the catalogue's main sections, the five fixed names; it is 0
    for the empty document and 1 (the percentage [overall] is 100) for every
    document in which each catalogue key is [true]. *)
Theorem overall_is_mean_of_sections (progress : gmap string json) :
  overall_bar progress
  == sumQ (map (section_ratio progress) (map fst sections_data))
       / inject_Z (Z.of_nat (length sections_data))
  /\ map fst sections_data = ["foundations"; "cicd"; "cloud"; "monitoring"; "sre"]
  /\ overall_bar ∅ == 0
  /\ (all_tasks_true progress ->
      overall progress == 100 /\ overall_bar progress == 1).
Proof.
  split; [apply overall_bar_mean |].
  split; [reflexivity |].
  split; [vm_compute; reflexivity |].
  intros Hall.
  assert (Hbar : overall_bar progress == 1).
  { rewrite overall_bar_mean.
    pose proof (all_tasks_true_ratio progress Hall) as Hr.
    rewrite sections_data_names in Hr |- *.
    change (length sections_data) with 5%nat.
    repeat (apply Forall_cons_iff in Hr as [? Hr]).
    cbn [map sumQ fold_right].
    repeat match goal with H : section_ratio _ _ == 1 |- _ => rewrite H; clear H end.
    reflexivity. }
  split; [| exact Hbar].
  unfold overall_bar in Hbar.
  rewrite <- (Qmult_1_l 100), <- Hbar. field.
Qed.

Lemma all_tasks_true_check (D : gmap string json) :
  forallb (fun key => match D !! key with
                      | Some (JBool true) => true
                      | _ => false
                      end) catalogue_keys = true ->
  all_tasks_true D.
Proof.
  unfold all_tasks_true. rewrite forallb_forall, List.Forall_forall.
  intros H key Hin. specialize (H key Hin).
  destruct (D !! key) as [[| [|] | | | |] |]; try discriminate H. reflexivity.
Qed.

Lemma overall_is_mean_of_sections_witness :
  all_tasks_true all_done /\ overall all_done == 100 /\ overall_bar all_done == 1.
Proof.
  assert (H : all_tasks_true all_done).
  { apply all_tasks_true_check. vm_compute. reflexivity. }
  split; [exact H |].
  destruct (overall_is_mean_of_sections all_done) as (_ & _ & _ & Hone).
  exact (Hone H).
Defined.

(** ** Section ratio: weighted, not the mean *)

Lemma subsection_ratios_equal_size (progress : gmap string json)
    (subsections : list (string * list string)) (n : nat) :
  (0 < n)%nat ->
  Forall (fun sub => length (snd sub) = n) subsections ->
  sumQ (map (subsectionRatio progress) subsections)
  == inject_Z (sumZ (map (completed_in progress) subsections))
       / inject_Z (Z.of_nat n)
  /\ sumZ (map tasks_in subsections)
     = (Z.of_nat (length subsections) * Z.of_nat n)%Z.
Proof.
  intros Hn Hall.
  assert (Hq : ~ inject_Z (Z.of_nat n) == 0).
  { intros H0. assert (Hp : 0 < inject_Z (Z.of_nat n)) by (apply inject_Z_pos; lia).
    rewrite H0 in Hp. exact (Qlt_irrefl 0 Hp). }
  induction Hall as [| sub subsections Hsub _ [IHq IHz]].
  - split; [cbn; field; exact Hq | reflexivity].
  - cbn [map sumQ sumZ fold_right length]. split.
    + fold (sumQ (map (subsectionRatio progress) subsections)). rewrite IHq.
      fold (sumZ (map (completed_in progress) subsections)).
      rewrite inject_Z_plus.
      unfold subsectionRatio, tasks_in. rewrite Hsub.
      destruct (snd sub) as [| t ts]; [cbn [length] in Hsub; lia |].
      field. exact Hq.
    + fold (sumZ (map tasks_in subsections)). rewrite IHz.
      unfold tasks_in. rewrite Hsub. lia.
Qed.

Lemma page_section_progress_weighted (all_progress : list (list (string * bool))) :
  page_section_progress all_progress / 100 == page_ratio_weighted all_progress.
Proof.
  unfold page_section_progress, page_ratio_weighted, page_total, page_count.
  rewrite !fold_left_add_sumZ, !Z.add_0_l.
  rewrite (map_ext sum_values _ sum_values_count).
  change (map len all_progress)
    with (map (fun items : list (string * bool) => Z.of_nat (length items))
            all_progress).
  destruct (0 <? _)%Z; [apply percent_scale | reflexivity].
Qed.

(** C2, as the code has it: the ratio of a main section is the task-weighted
    one, all completed tasks of the section over all its tasks, in the
    overview ([calculate_section_progress]) and under each page section
    ([f_progress] and its siblings) alike.  It equals the unweighted mean of
    the subsection ratios when the subsections of the section all have the
    same number of tasks. *)
Theorem section_ratio_is_task_weighted (progress : gmap string json)
    (main_section : string) (subsections : list (string * list string)) :
  In (main_section, subsections) sections_data ->
  section_ratio progress main_section
  == sectionRatio_weighted progress subsections
  /\ (forall n : nat,
        (0 < n)%nat ->
        Forall (fun sub => length (snd sub) = n) subsections ->
        section_ratio progress main_section
        == sectionRatio_mean progress subsections)
  /\ (forall all_progress : list (list (string * bool)),
        page_section_progress all_progress / 100
        == page_ratio_weighted all_progress).
Proof.
  intros Hin.
  split; [apply section_ratio_weighted, Hin |].
  split; [| exact page_section_progress_weighted].
  intros n Hn Hall.
  rewrite (section_ratio_weighted _ _ _ Hin).
  destruct (subsection_ratios_equal_size progress subsections n Hn Hall)
    as [Hq Hz].
  pose proof sections_have_tasks as Hpos.
  rewrite List.Forall_forall in Hpos. specialize (Hpos _ Hin). cbn [snd] in Hpos.
  unfold sectionRatio_weighted, sectionRatio_mean.
  destruct subsections as [| sub rest]; [cbn in Hpos; lia |].
  rewrite Hq.
  destruct (Z.ltb_spec 0 (sumZ (map tasks_in (sub :: rest)))) as [_ | Hge]; [| lia].
  rewrite Hz, inject_Z_mult.
  assert (Hk : ~ inject_Z (Z.of_nat (length (sub :: rest))) == 0).
  { intros H0.
    assert (Hp : 0 < inject_Z (Z.of_nat (length (sub :: rest))))
      by (apply inject_Z_pos; cbn [length]; lia).
    rewrite H0 in Hp. exact (Qlt_irrefl 0 Hp). }
  assert (Hnq : ~ inject_Z (Z.of_nat n) == 0).
  { intros H0. assert (Hp : 0 < inject_Z (Z.of_nat n)) by (apply inject_Z_pos; lia).
    rewrite H0 in Hp. exact (Qlt_irrefl 0 Hp). }
  field. split; assumption.
Qed.

Lemma section_ratio_is_task_weighted_witness :
  section_ratio linux_done "foundations"
  == sectionRatio_weighted linux_done foundations_subsections
  /\ sectionRatio_weighted linux_done foundations_subsections == 10 # 46.
Proof.
  assert (Hin : In ("foundations", foundations_subsections) sections_data)
    by (left; reflexivity).
  destruct (section_ratio_is_task_weighted linux_done "foundations"
              foundations_subsections Hin) as (Hw & _).
  split; [exact Hw |].
  vm_compute. reflexivity.
Defined.

(** C2 as worded fails: with the ten Linux tasks done and nothing else, the
    ratio shown for "foundations" is 10/46, while the unweighted mean of its
    six subsection ratios is 1/6. *)
Lemma section_ratio_is_not_the_mean :
  section_ratio linux_done "foundations" == 10 # 46
  /\ sectionRatio_mean linux_done foundations_subsections == 1 # 6
  /\ ~ (section_ratio linux_done "foundations"
        == sectionRatio_mean linux_done foundations_subsections).
Proof.
  split; [vm_compute; reflexivity |].
  split; [vm_compute; reflexivity |].
  intros H. vm_compute in H. discriminate H.
Qed.

(** ** Frame of the check boxes *)

Lemma page_keys_catalogue : page_keys = catalogue_keys.
Proof. vm_compute. reflexivity. Qed.

Lemma persistent_checkbox_frame (checkbox : string -> json -> string -> bool)
    (label key k : string) (progress : gmap string json) :
  key <> k ->
  snd (persistent_checkbox checkbox label key progress) !! k = progress !! k.
Proof. intros Hne. unfold persistent_checkbox; cbn [snd]. apply lookup_insert_ne, Hne. Qed.

Lemma subtask_loop_frame (checkbox : string -> json -> string -> bool)
    (section_key k : string) (subtasks : list (string * string))
    (progress : gmap string json) :
  ~ In k (map (fun kv => full_key section_key (fst kv)) subtasks) ->
  snd (subtask_loop checkbox section_key subtasks progress) !! k = progress !! k.
Proof.
  revert progress.
  induction subtasks as [| [subtask_key name] subtasks IH]; intros progress Hk;
    cbn [subtask_loop]; [reflexivity |].
  cbn [map fst In] in Hk.
  pose proof (persistent_checkbox_frame checkbox name
                (full_key section_key subtask_key) k progress) as Hone.
  destruct (persistent_checkbox checkbox name
              (full_key section_key subtask_key) progress) as [value progress1].
  specialize (IH progress1).
  destruct (subtask_loop checkbox section_key subtasks progress1)
    as [subtask_progress progress2].
  cbn [snd] in *. rewrite IH by tauto. apply Hone. tauto.
Qed.

Lemma render_panels_frame (checkbox : string -> json -> string -> bool)
    (k : string) (panels : list Panel) (progress : gmap string json) :
  ~ In k (flat_map panel_keys panels) ->
  snd (render_panels checkbox panels progress) !! k = progress !! k.
Proof.
  revert progress.
  induction panels as [| p panels IH]; intros progress Hk;
    cbn [render_panels]; [reflexivity |].
  cbn [flat_map] in Hk. rewrite in_app_iff in Hk.
  unfold create_subtask_section.
  pose proof (subtask_loop_frame checkbox (section_key p) k (subtasks p)
                progress) as Hone.
  destruct (subtask_loop checkbox (section_key p) (subtasks p) progress)
    as [sp progress1].
  specialize (IH progress1).
  destruct (render_panels checkbox panels progress1) as [all progress2].
  cbn [snd] in *. rewrite IH by tauto. apply Hone.
  unfold panel_keys in Hk. tauto.
Qed.

Lemma render_page_frame (checkbox : string -> json -> string -> bool)
    (k : string) (sections : list (list Panel)) (progress : gmap string json) :
  ~ In k (flat_map (flat_map panel_keys) sections) ->
  snd (render_page checkbox sections progress) !! k = progress !! k.
Proof.
  revert progress.
  induction sections as [| panels sections IH]; intros progress Hk;
    cbn [render_page]; [reflexivity |].
  cbn [flat_map] in Hk. rewrite in_app_iff in Hk.
  pose proof (render_panels_frame checkbox k panels progress) as Hone.
  destruct (render_panels checkbox panels progress) as [all progress1].
  specialize (IH progress1).
  destruct (render_page checkbox sections progress1) as [alls progress2].
  cbn [snd] in *. rewrite IH by tauto. apply Hone. tauto.
Qed.

Lemma save_progress_writes (loc : string) (data : json) (w : World) :
  In (EvWriteLocal data) (snd (save_progress loc data w)).
Proof.
  destruct (save_progress_split loc data w) as (rest & Hs & _).
  destruct (write_local_first data w) as (t & Ht).
  rewrite Hs, Ht. left. reflexivity.
Qed.

(** ** One run of the script on a fresh session *)

Lemma init_session_fresh (loc : string) (w : World) (doc : gmap string json) :
  fst (load_progress loc w) = Ok (JObj doc) ->
  (forall v, doc !! "notes" = Some v -> is_dict v = true) ->
  exists n,
    init_session loc w cleared
    = (Ok (mkSession (Some (JObj doc)) (Some n) (Some false)),
       snd (load_progress loc w)).
Proof.
  intros Hload Hnotes. unfold init_session; cbn [progress notes cleared].
  destruct (load_progress loc w) as [r t0]; cbn [fst snd] in *. subst r.
  cbn [bind py_get ret].
  destruct (doc !! "notes") as [v |] eqn:Hv.
  - specialize (Hnotes v eq_refl). destruct v; try discriminate Hnotes.
    cbn. rewrite !app_nil_r. eexists. reflexivity.
  - cbn. rewrite !app_nil_r. eexists. reflexivity.
Qed.

(** C6: take a fresh session whose load returned the document [doc], and a
    key [k] that is no key of the catalogue and not [notes].  One assignment
    of [persistent_checkbox] changes the entry of its own key only: every
    other key of the document keeps its value.  And after a whole run of the
    script, whatever boxes the user ticked and whatever
    notes were typed, the session's document and the document handed to the
    local write hold for [k] exactly what [doc] held (absent stays absent);
    when the write succeeds the local file holds that document. *)
Theorem unknown_keys_survive (ui : UI) (loc : string) (w : World)
    (doc : gmap string json) (k : string) :
  fst (load_progress loc w) = Ok (JObj doc) ->
  (forall v, doc !! "notes" = Some v -> is_dict v = true) ->
  ~ In k catalogue_keys ->
  k <> "notes" ->
  (forall label key other : string,
     key <> other ->
     snd (persistent_checkbox (checkbox ui) label key doc) !! other
     = doc !! other)
  /\ exists doc' s' w' rerun t,
       script_run loc ui cleared w = (Ok (s', w', rerun), t)
       /\ progress s' = Some (JObj doc')
       /\ doc' !! k = doc !! k
       /\ In (EvWriteLocal (JObj doc')) t
       /\ (local_write w = None -> local_file w' = Some (Ok (JObj doc'))).
Proof.
  intros Hload Hnotes Hk Hkn.
  split; [intros label key other Hne; apply persistent_checkbox_frame, Hne |].
  destruct (init_session_fresh loc w doc Hload Hnotes) as (n & Hinit).
  unfold script_run. rewrite Hinit. cbn [bind progress notes].
  pose proof (render_page_frame (checkbox ui) k page doc) as Hframe.
  destruct (render_page (checkbox ui) page doc) as [alls doc1].
  cbn [snd] in Hframe.
  unfold autosave.
  set (doc2 := <["notes" := notes_dict (edit_notes ui n)]> doc1).
  pose proof (save_progress_writes loc (JObj doc2) w) as Hwrite.
  pose proof (save_progress_local_file loc (JObj doc2) w) as Hfile.
  destruct (save_progress loc (JObj doc2) w) as [w1 t]. cbn [fst snd] in *.
  assert (Hdoc2 : doc2 !! k = doc !! k).
  { unfold doc2. rewrite lookup_insert_ne by congruence.
    apply Hframe. fold page_keys. rewrite page_keys_catalogue. exact Hk. }
  unfold reset_block; cbn [show_reset_confirmation].
  destruct (button_reset ui); cbn [ret bind];
    eexists doc2, _, w1, _, _; (split; [reflexivity |]);
    (split; [reflexivity |]); (split; [exact Hdoc2 |]);
    (split; [| exact Hfile]);
    rewrite !app_nil_r; apply in_or_app; right; exact Hwrite.
Qed.

Lemma unknown_keys_survive_witness :
  exists doc' s' w' rerun t,
    script_run "" idle cleared world_with_legacy_file = (Ok (s', w', rerun), t)
    /\ progress s' = Some (JObj doc')
    /\ doc' !! "ansible_playbooks" = Some (JBool true)
    /\ local_file w' = Some (Ok (JObj doc')).
Proof.
  destruct (unknown_keys_survive idle "" world_with_legacy_file with_legacy_key
              "ansible_playbooks")
    as (_ & doc' & s' & w' & rerun & t & Hrun & Hp & Hk & _ & Hfile).
  - reflexivity.
  - intros v Hv. vm_compute in Hv. discriminate Hv.
  - rewrite <- list_elem_of_In. apply (bool_decide_unpack _).
    vm_compute. exact I.
  - discriminate.
  - exists doc', s', w', rerun, t.
    split; [exact Hrun |]. split; [exact Hp |].
    split; [rewrite Hk; reflexivity | apply Hfile; reflexivity].
Defined.

(** ** The catalogue's keys *)

(** X2: the flat keys [{subsection_key}_{task_key}] of the catalogue are
    pairwise distinct: no two tasks share an entry of the document. *)
Lemma catalogue_keys_unique : NoDup catalogue_keys /\ length catalogue_keys = 189%nat.
Proof.
  split; [| reflexivity].
  apply (bool_decide_unpack _). vm_compute. exact I.
Qed.

(** * Further properties of the store *)

(** ** Locations *)

Lemma append_cons (a : ascii) (p s : string) :
  String a p ++ s = String a (p ++ s).
Proof. reflexivity. Qed.

Lemma append_nil (s : string) : "" ++ s = s.
Proof. reflexivity. Qed.

Lemma prefix_split (p s : string) :
  String.prefix p s = true -> s = p ++ drop_chars (String.length p) s.
Proof.
  revert s. induction p as [| a p IH]; intros s H; [reflexivity |].
  destruct s as [| b s]; [discriminate H |].
  cbn [String.prefix] in H.
  destruct (Ascii.ascii_dec a b) as [<- | ?]; [| discriminate H].
  rewrite append_cons. cbn [String.length drop_chars]. f_equal. apply IH, H.
Qed.

Lemma prefix_append (p s : string) : String.prefix p (p ++ s) = true.
Proof.
  induction p as [| a p IH]; [destruct s; reflexivity |].
  rewrite append_cons. cbn [String.prefix].
  destruct (Ascii.ascii_dec a a) as [_ | Hne]; [exact IH | congruence].
Qed.

Lemma drop_chars_append (p s : string) :
  drop_chars (String.length p) (p ++ s) = s.
Proof.
  induction p as [| a p IH]; [reflexivity |].
  rewrite append_cons. cbn [String.length drop_chars]. exact IH.
Qed.

Lemma http_url_is_no_s3_url (loc : string) :
  is_http_url loc = true -> is_s3_url loc = false.
Proof.
  unfold is_http_url, is_s3_url.
  destruct loc as [| a loc]; [discriminate |].
  cbn [String.prefix].
  destruct (Ascii.ascii_dec "s"%char a) as [<- | ?]; [discriminate | reflexivity].
Qed.

(** ** [parse_s3_url] *)

Lemma split_slash_once_no_slash (s : string) :
  no_slash s = true -> split_slash_once s = [s].
Proof.
  induction s as [| c s IH]; intros H; [reflexivity |].
  cbn [no_slash] in H. apply andb_prop in H as [Hc Hs].
  cbn [split_slash_once]. apply negb_true_iff in Hc. rewrite Hc, (IH Hs).
  reflexivity.
Qed.

Lemma split_slash_once_slash (b k : string) :
  no_slash b = true -> split_slash_once (b ++ "/" ++ k) = [b; k].
Proof.
  induction b as [| c b IH]; intros H; [reflexivity |].
  cbn [no_slash] in H. apply andb_prop in H as [Hc Hs].
  rewrite append_cons. cbn [split_slash_once]. apply negb_true_iff in Hc.
  rewrite Hc, (IH Hs). reflexivity.
Qed.

(** What [split('/', 1)] returns: one part without a slash, or the part
    before the first slash and the rest. *)
Lemma split_slash_once_spec (s : string) :
  (split_slash_once s = [s] /\ no_slash s = true)
  \/ exists b k, split_slash_once s = [b; k] /\ no_slash b = true
                 /\ s = b ++ "/" ++ k.
Proof.
  induction s as [| c s IH]; [left; split; reflexivity |].
  cbn [split_slash_once no_slash].
  destruct (Ascii.eqb c "/") eqn:Hc.
  - right. exists "", s. apply Ascii.eqb_eq in Hc. subst c.
    repeat split; reflexivity.
  - destruct IH as [[Hs Hn] | (b & k & Hs & Hn & Heq)].
    + left. rewrite Hs, Hn. split; reflexivity.
    + right. exists (String c b), k. rewrite Hs. cbn [no_slash].
      rewrite Hc, Hn. subst s. repeat split; reflexivity.
Qed.

(** X3: [parse_s3_url] inverts the usual way of writing an s3 location: for a
    bucket name without a slash, ["s3://" ++ bucket ++ "/" ++ key] parses to
    that bucket and that key, slashes inside the key included, and
    ["s3://" ++ bucket] parses to the bucket and the empty key. *)
Theorem parse_s3_url_roundtrip (bucket key : string) :
  no_slash bucket = true ->
  parse_s3_url ("s3://" ++ bucket ++ "/" ++ key) = Ok (bucket, key)
  /\ parse_s3_url ("s3://" ++ bucket) = Ok (bucket, "").
Proof.
  intros Hb. unfold parse_s3_url.
  rewrite !prefix_append, !drop_chars_append.
  rewrite (split_slash_once_slash _ _ Hb), (split_slash_once_no_slash _ Hb).
  split; reflexivity.
Qed.

Lemma parse_s3_url_roundtrip_witness :
  parse_s3_url "s3://my-bucket/dev-ops-dashboard/dashboard_progress.json"
  = Ok ("my-bucket", "dev-ops-dashboard/dashboard_progress.json").
Proof.
  apply (parse_s3_url_roundtrip "my-bucket"
           "dev-ops-dashboard/dashboard_progress.json").
  reflexivity.
Defined.

(** X4: [parse_s3_url] raises [ValueError] exactly on the texts that do not
    start with [s3://].  On the others it returns a bucket without a slash
    and a key from which the text can be rebuilt: the text is
    ["s3://" ++ bucket ++ "/" ++ key], or it is ["s3://" ++ bucket] with no
    slash after the scheme, and then the key is empty. *)
Theorem parse_s3_url_decomposes (s3_url : string) :
  if is_s3_url s3_url then
    exists bucket key,
      parse_s3_url s3_url = Ok (bucket, key)
      /\ no_slash bucket = true
      /\ (s3_url = "s3://" ++ bucket ++ "/" ++ key
          \/ (s3_url = "s3://" ++ bucket /\ key = ""))
  else parse_s3_url s3_url = Raise (mkExn ValueError "Invalid s3 url").
Proof.
  unfold is_s3_url, parse_s3_url.
  destruct (String.prefix "s3://" s3_url) eqn:Hp; [| reflexivity].
  pose proof (prefix_split _ _ Hp) as Hsplit.
  set (without := drop_chars (String.length "s3://") s3_url) in *.
  destruct (split_slash_once_spec without)
    as [[Hs Hn] | (b & k & Hs & Hn & Heq)]; rewrite Hs.
  - exists without, "". repeat split; [exact Hn |]. right. split; [exact Hsplit | reflexivity].
  - exists b, k. repeat split; [exact Hn |]. left. rewrite Hsplit at 1. rewrite Heq. reflexivity.
Qed.

(** ** Which failures [load_progress] absorbs *)

Lemma load_progress_nonempty_returns (loc : string) (w : World) :
  loc <> "" -> returns (fst (load_progress loc w)) = true.
Proof.
  intros Hne. apply String.eqb_neq in Hne.
  unfold load_progress. rewrite Hne.
  assert (Hlocal : returns (fst (read_local except_Exception w)) = true)
    by (rewrite read_local_Exception; reflexivity).
  destruct (is_http_url loc).
  { destruct (http_get w loc) as [v | e]; [reflexivity |].
    rewrite except_Exception_all.
    destruct (read_local except_Exception w); exact Hlocal. }
  destruct (is_s3_url loc); [| reflexivity].
  destruct (s3_fetch loc w) as [[v | e] t0]; [reflexivity |].
  rewrite except_Exception_all.
  destruct (read_local except_Exception w); exact Hlocal.
Qed.

(** X1: with no remote configured, every failure of the local read other than
    [JSONDecodeError] and [FileNotFoundError] (a file that cannot be opened,
    bytes that are not text) is raised to the caller of [load_progress]; with
    any non-empty location the same environment makes it return a value. *)
Theorem local_branch_lets_other_errors_through (w : World) (e : exn) :
  local_file w = Some (Raise e) ->
  except_JSONDecodeError_FileNotFoundError e = false ->
  load_progress "" w = (Raise e, [EvExists; EvReadLocal])
  /\ (forall loc, loc <> "" -> returns (fst (load_progress loc w)) = true).
Proof.
  intros Hfile Hcatch. split; [| intros loc; apply load_progress_nonempty_returns].
  unfold load_progress, read_local; cbn [String.eqb].
  rewrite Hfile, Hcatch. reflexivity.
Qed.

Lemma local_branch_lets_other_errors_through_witness :
  load_progress "" world_with_locked_file
  = (Raise permission_denied, [EvExists; EvReadLocal])
  /\ returns (fst (load_progress default_S3_LOCATION world_with_locked_file))
     = true.
Proof.
  destruct (local_branch_lets_other_errors_through world_with_locked_file
              permission_denied) as [H1 H2].
  - reflexivity.
  - reflexivity.
  - split; [exact H1 | apply H2; discriminate].
Defined.

(** ** Which backend each location touches *)

Lemma no_s3_event_read_local (catches : exn -> bool) (w : World) :
  filter (fun ev => is_s3_event ev = true) (snd (read_local catches w)) = []
  /\ filter (fun ev => is_http_event ev = true) (snd (read_local catches w)) = [].
Proof. rewrite read_local_trace. destruct (local_file w); split; reflexivity. Qed.

Lemma no_s3_event_write_local (data : json) (w : World) :
  filter (fun ev => is_s3_event ev = true) (snd (write_local data w)) = []
  /\ filter (fun ev => is_http_event ev = true) (snd (write_local data w)) = [].
Proof.
  unfold write_local.
  destruct (local_write w) as [e |]; [destruct (except_Exception e) |];
    split; reflexivity.
Qed.

Lemma no_http_event_s3_upload (loc : string) (data : json) (w : World) :
  filter (fun ev => is_http_event ev = true) (snd (s3_upload loc data w)) = [].
Proof.
  unfold s3_upload.
  destruct (parse_s3_url loc) as [[bucket key] | e]; [| reflexivity].
  destruct (s3_client w); [reflexivity |].
  destruct (s3_put_error w); reflexivity.
Qed.

(** X5: the store touches a remote backend only under a location of that
    backend.  Unless the location starts with [s3://], neither
    [load_progress] nor [save_progress] creates an s3 client or calls
    [get_object] or [put_object]; unless it starts with [http://] or
    [https://], [load_progress] sends no http request; and
    [save_progress] never sends one, whatever the location. *)
Theorem remote_calls_follow_the_scheme (loc : string) (data : json) (w : World) :
  (is_s3_url loc = false ->
     filter (fun ev => is_s3_event ev = true) (snd (load_progress loc w)) = []
     /\ filter (fun ev => is_s3_event ev = true)
          (snd (save_progress loc data w)) = [])
  /\ (is_http_url loc = false ->
        filter (fun ev => is_http_event ev = true) (snd (load_progress loc w))
        = [])
  /\ filter (fun ev => is_http_event ev = true) (snd (save_progress loc data w))
     = [].
Proof.
  pose proof (no_s3_event_read_local except_Exception w) as [Hr1 Hr2].
  pose proof (no_s3_event_write_local data w) as [Hw1 Hw2].
  split; [| split].
  - intros Hs3. split.
    + unfold load_progress. rewrite Hs3.
      destruct (String.eqb loc "");
        [apply (no_s3_event_read_local _ w) |].
      destruct (is_http_url loc); [| reflexivity].
      destruct (http_get w loc) as [v | e]; [reflexivity |].
      rewrite except_Exception_all.
      destruct (read_local except_Exception w) as [r t]; cbn [snd] in *.
      rewrite !filter_cons; cbn. exact Hr1.
    + unfold save_progress. rewrite Hs3.
      destruct (write_local data w) as [w1 t1]; cbn [snd] in *.
      destruct (String.eqb loc ""); [exact Hw1 |].
      destruct (is_http_url loc); [| exact Hw1].
      cbn [snd]. rewrite filter_app, Hw1. reflexivity.
  - intros Hhttp. unfold load_progress. rewrite Hhttp.
    destruct (String.eqb loc "");
      [apply (no_s3_event_read_local _ w) |].
    destruct (is_s3_url loc); [| reflexivity].
    assert (Hf : filter (fun ev => is_http_event ev = true) (snd (s3_fetch loc w)) = []).
    { unfold s3_fetch.
      destruct (parse_s3_url loc) as [[bucket key] | e]; [| reflexivity].
      destruct (s3_client w); reflexivity. }
    destruct (s3_fetch loc w) as [[v | e] t0]; cbn [snd] in *; [exact Hf |].
    rewrite except_Exception_all.
    destruct (read_local except_Exception w) as [r t]; cbn [snd] in *.
    rewrite filter_app, Hf, filter_cons; cbn. exact Hr2.
  - unfold save_progress.
    pose proof (no_http_event_s3_upload loc data) as Hup.
    destruct (write_local data w) as [w1 t1]; cbn [snd] in *.
    destruct (String.eqb loc ""); [exact Hw2 |].
    destruct (is_http_url loc).
    { cbn [snd]. rewrite filter_app, Hw2. reflexivity. }
    destruct (is_s3_url loc); [| exact Hw2].
    specialize (Hup w1).
    destruct (s3_upload loc data w1) as [w2 t2]; cbn [snd] in *.
    rewrite filter_app, Hw2, Hup. reflexivity.
Qed.

(** X6: a remote fetch that succeeds hides the local file.  Under an http(s)
    or s3 location whose fetch returns a value, [load_progress] returns that
    value, issues no notice, and neither tests nor reads the local file: the
    result is the same whatever the local file holds. *)
Theorem remote_success_hides_local_file (loc : string) (w : World) (v : json) :
  (is_http_url loc = true /\ http_get w loc = Ok v)
  \/ (is_http_url loc = false /\ is_s3_url loc = true
      /\ fst (s3_fetch loc w) = Ok v) ->
  fst (load_progress loc w) = Ok v
  /\ filter (fun ev => is_local_read ev = true) (snd (load_progress loc w)) = []
  /\ filter (fun ev => is_notice ev = true) (snd (load_progress loc w)) = []
  /\ (forall f, load_progress loc (with_local_file f w) = load_progress loc w).
Proof.
  intros [[Hhttp Hget] | (Hhttp & Hs3 & Hfetch)].
  - unfold load_progress. rewrite (is_http_url_nonempty _ Hhttp), Hhttp.
    cbn [http_get with_local_file]. rewrite Hget. repeat split; reflexivity.
  - unfold load_progress. rewrite (is_s3_url_nonempty _ Hs3), Hhttp, Hs3.
    assert (Hsame : forall f, s3_fetch loc (with_local_file f w) = s3_fetch loc w)
      by reflexivity.
    assert (Hl : filter (fun ev => is_local_read ev = true) (snd (s3_fetch loc w)) = []).
    { unfold s3_fetch.
      destruct (parse_s3_url loc) as [[bucket key] | e]; [| reflexivity].
      destruct (s3_client w); reflexivity. }
    pose proof (notices_s3_fetch loc w) as Hn.
    split; [| split; [| split]].
    + destruct (s3_fetch loc w) as [[v' | e] t0]; cbn [fst] in *; congruence.
    + destruct (s3_fetch loc w) as [[v' | e] t0]; cbn [fst snd] in *;
        [exact Hl | discriminate].
    + destruct (s3_fetch loc w) as [[v' | e] t0]; cbn [fst snd] in *;
        [exact Hn | discriminate].
    + intros f. rewrite Hsame.
      destruct (s3_fetch loc w) as [[v' | e] t0]; cbn [fst] in *;
        [reflexivity | discriminate].
Qed.

Lemma remote_success_hides_local_file_witness :
  load_progress default_S3_LOCATION world_synced
  = load_progress default_S3_LOCATION world_with_remote.
Proof.
  destruct (remote_success_hides_local_file default_S3_LOCATION
              world_with_remote (JObj one_task_done)) as (_ & _ & _ & H).
  - left. split; reflexivity.
  - exact (H (Some (Ok (JObj one_task_done)))).
Defined.

(** ** The s3 branch *)

(** X7: with an s3 location, any failure of the fetch (no client, a failing
    [get_object], a missing object, a body that is not JSON) makes
    [load_progress] issue one warning and run the local read block: it returns
    what the local file parses to, and [{}] when the file is absent or
    unreadable. *)
Theorem s3_failure_falls_back_to_local (loc : string) (w : World) (e : exn) :
  is_s3_url loc = true ->
  fst (s3_fetch loc w) = Raise e ->
  fst (load_progress loc w)
  = Ok (match local_file w with Some (Ok v) => v | _ => empty_dict end)
  /\ snd (load_progress loc w)
     = (snd (s3_fetch loc w)
          ++ EvNotice Warning (msg_s3_load loc e) :: snd (load_progress "" w))%list
  /\ (s3_client w = Some e
      \/ (s3_client w = None /\ s3_get_error w = Some e)
      \/ (s3_client w = None /\ s3_get_error w = None
          /\ exists bucket key,
               parse_s3_url loc = Ok (bucket, key)
               /\ s3_store w bucket key = Raise e)).
Proof.
  intros Hs3 Hfetch.
  assert (Hhttp : is_http_url loc = false).
  { destruct (is_http_url loc) eqn:H; [| reflexivity].
    rewrite (http_url_is_no_s3_url _ H) in Hs3. discriminate Hs3. }
  split; [| split].
  - rewrite (load_progress_s3 _ _ Hhttp Hs3), Hfetch. reflexivity.
  - unfold load_progress at 1.
    rewrite (is_s3_url_nonempty _ Hs3), Hhttp, Hs3.
    destruct (s3_fetch loc w) as [[v | e'] t0]; cbn [fst snd] in *;
      [discriminate Hfetch |].
    injection Hfetch as ->. rewrite except_Exception_all.
    unfold load_progress; cbn [String.eqb]. rewrite (read_local_trace _ w).
    pose proof (read_local_trace except_Exception w) as Ht.
    destruct (read_local except_Exception w) as [r t]; cbn [snd] in *.
    rewrite Ht. reflexivity.
  - rewrite s3_fetch_value in Hfetch.
    destruct (parse_s3_url_ok _ Hs3) as (bucket & key & Hparse).
    rewrite Hparse in Hfetch.
    destruct (s3_client w) as [e' |]; [left; congruence |].
    unfold s3_get_object in Hfetch.
    destruct (s3_get_error w) as [e' |]; [right; left; split; congruence |].
    right; right. split; [reflexivity |]. split; [reflexivity |].
    exists bucket, key. split; [exact Hparse | exact Hfetch].
Qed.

Lemma s3_failure_falls_back_to_local_witness :
  load_progress s3_location (with_local_file (Some (Ok (JObj one_task_done))) world_with_bucket)
  = (Ok (JObj one_task_done),
     [EvS3Client; EvS3Get "my-bucket" "dashboard_progress.json";
      EvNotice Warning (msg_s3_load s3_location no_such_key);
      EvExists; EvReadLocal]).
Proof.
  destruct (s3_failure_falls_back_to_local s3_location
              (with_local_file (Some (Ok (JObj one_task_done))) world_with_bucket)
              no_such_key) as (H1 & H2 & _).
  - reflexivity.
  - reflexivity.
  - rewrite (surjective_pairing (load_progress _ _)), H1, H2. reflexivity.
Defined.

Lemma parse_ok_is_s3_url (loc bucket key : string) :
  parse_s3_url loc = Ok (bucket, key) ->
  is_s3_url loc = true /\ is_http_url loc = false /\ String.eqb loc "" = false.
Proof.
  intros Hparse.
  assert (Hs3 : is_s3_url loc = true).
  { unfold parse_s3_url in Hparse. unfold is_s3_url.
    destruct (String.prefix "s3://" loc); [reflexivity | discriminate Hparse]. }
  split; [exact Hs3 |]. split; [| apply is_s3_url_nonempty, Hs3].
  destruct (is_http_url loc) eqn:H; [| reflexivity].
  rewrite (http_url_is_no_s3_url _ H) in Hs3. discriminate Hs3.
Qed.

(** X8: with an s3 location, [save_progress] uploads the whole document.
    When the client and [put_object] work, the object under the parsed bucket
    and key is the document, every other object is untouched, and the trace
    ends with the success notice.  When either fails, the bucket is what it
    was, the trace ends with the error notice carrying the failure, and the
    local backup written before is kept. *)
Theorem s3_save_outcome (loc bucket key : string) (data : json) (w : World) :
  parse_s3_url loc = Ok (bucket, key) ->
  (s3_client w = None -> s3_put_error w = None ->
     s3_store (fst (save_progress loc data w)) bucket key = Ok data
     /\ (forall b k, (String.eqb b bucket && String.eqb k key) = false ->
           s3_store (fst (save_progress loc data w)) b k = s3_store w b k)
     /\ snd (save_progress loc data w)
        = (snd (write_local data w)
             ++ [EvS3Client; EvS3Put bucket key data;
                 EvNotice Success msg_s3_saved])%list)
  /\ (forall e,
        s3_client w = Some e \/ (s3_client w = None /\ s3_put_error w = Some e) ->
        s3_store (fst (save_progress loc data w)) = s3_store w
        /\ last (snd (save_progress loc data w))
           = Some (EvNotice Error (msg_s3_failed e))
        /\ (local_write w = None ->
            local_file (fst (save_progress loc data w)) = Some (Ok data))).
Proof.
  intros Hparse.
  destruct (parse_ok_is_s3_url _ _ _ Hparse) as (Hs3 & Hhttp & Hne).
  split.
  - intros Hc Hp.
    split; [apply save_progress_s3_store; assumption |].
    unfold save_progress, write_local, s3_upload.
    rewrite Hne, Hhttp, Hs3, Hparse.
    destruct (local_write w) as [e |]; [destruct (except_Exception e) |];
      cbn [s3_client s3_put_error with_local_file]; rewrite Hc, Hp;
      cbn [fst snd with_s3_object s3_store with_local_file];
      (split; [intros b k Hbk; rewrite Hbk; reflexivity | reflexivity]).
  - intros e He.
    split; [apply save_progress_s3_store_kept; destruct He as [-> | [_ ->]];
            [left | right]; discriminate |].
    split; [| apply save_progress_local_file].
    unfold save_progress, write_local, s3_upload.
    rewrite Hne, Hhttp, Hs3, Hparse.
    destruct (local_write w) as [e' |]; [destruct (except_Exception e') |];
      cbn [s3_client s3_put_error with_local_file];
      (destruct He as [-> | [-> ->]]; reflexivity).
Qed.

Lemma s3_save_outcome_witness :
  s3_store (fst (save_progress s3_location (JObj one_task_done) world_with_bucket))
    "my-bucket" "dashboard_progress.json" = Ok (JObj one_task_done)
  /\ last (snd (save_progress s3_location (JObj one_task_done)
                  world_with_readonly_bucket))
     = Some (EvNotice Error (msg_s3_failed access_denied)).
Proof.
  destruct (s3_save_outcome s3_location "my-bucket" "dashboard_progress.json"
              (JObj one_task_done) world_with_bucket eq_refl) as [Hok _].
  destruct (s3_save_outcome s3_location "my-bucket" "dashboard_progress.json"
              (JObj one_task_done) world_with_readonly_bucket eq_refl)
    as [_ Hfail].
  split.
  - apply Hok; reflexivity.
  - apply (Hfail access_denied). right. split; reflexivity.
Defined.

(** ** Saving twice *)

Ltac world_fields :=
  cbn [fst snd local_file local_write local_remove http_get s3_client
       s3_get_error s3_put_error s3_store with_local_file with_s3_object].

Ltac settle_world :=
  repeat progress
    (world_fields;
     repeat match goal with H : _ = _ |- _ => rewrite H end;
     rewrite ?except_Exception_all).

(** X9: a save replaces the whole document and keeps nothing of the one
    before: saving [D1] and then [D2] leaves the environment that saving
    [D2] alone leaves, with the same trace for the second save.  In
    particular saving the same document twice changes nothing the second
    time. *)
Theorem save_progress_last_write_wins (loc : string) (D1 D2 : json) (w : World) :
  same_world (fst (save_progress loc D2 (fst (save_progress loc D1 w))))
             (fst (save_progress loc D2 w))
  /\ snd (save_progress loc D2 (fst (save_progress loc D1 w)))
     = snd (save_progress loc D2 w)
  /\ same_world (fst (save_progress loc D1 (fst (save_progress loc D1 w))))
                (fst (save_progress loc D1 w)).
Proof.
  assert (H : forall A B : json,
            same_world (fst (save_progress loc B (fst (save_progress loc A w))))
                       (fst (save_progress loc B w))
            /\ snd (save_progress loc B (fst (save_progress loc A w)))
               = snd (save_progress loc B w)).
  { intros A B. unfold same_world, save_progress, write_local, s3_upload.
    destruct (local_write w) as [e |] eqn:Hlw;
      [rewrite (except_Exception_all e) |];
      (destruct (String.eqb loc ""); [settle_world; repeat split; reflexivity |]);
      (destruct (is_http_url loc); [settle_world; repeat split; reflexivity |]);
      (destruct (is_s3_url loc); [| settle_world; repeat split; reflexivity]);
      (destruct (parse_s3_url loc) as [[bucket key] | e'];
       [| settle_world; repeat split; reflexivity]);
      world_fields;
      (destruct (s3_client w) as [ec |] eqn:Hc;
       [settle_world; repeat split; reflexivity |]);
      (destruct (s3_put_error w) as [ep |] eqn:Hp;
       [settle_world; repeat split; reflexivity |]);
      settle_world; (repeat split; try reflexivity);
      intros b k; destruct (String.eqb b bucket && String.eqb k key);
      reflexivity. }
  split; [apply H |]. split; [apply H | apply H].
Qed.

(** X10: under a non-empty location of an unknown scheme a save is
    write-only.  [save_progress] does exactly what the local backup does,
    with no remote step and no notice of its own, so a successful write puts
    the document in the local file; and the next [load_progress] still
    returns [{}], since that branch never reads the file. *)
Theorem unknown_scheme_saves_but_never_loads (loc : string) (D : json) (w : World) :
  loc <> "" ->
  is_http_url loc = false ->
  is_s3_url loc = false ->
  save_progress loc D w = write_local D w
  /\ (local_write w = None ->
      local_file (fst (save_progress loc D w)) = Some (Ok D))
  /\ load_progress loc (fst (save_progress loc D w)) = (Ok empty_dict, []).
Proof.
  intros Hne Hhttp Hs3. apply String.eqb_neq in Hne.
  assert (Hsave : save_progress loc D w = write_local D w).
  { unfold save_progress. rewrite Hne, Hhttp, Hs3.
    destruct (write_local D w); reflexivity. }
  split; [exact Hsave |]. split; [apply save_progress_local_file |].
  unfold load_progress. rewrite Hne, Hhttp, Hs3. reflexivity.
Qed.

Lemma unknown_scheme_saves_but_never_loads_witness :
  local_file (fst (save_progress ftp_location (JObj one_task_done) bare_world))
  = Some (Ok (JObj one_task_done))
  /\ load_progress ftp_location
       (fst (save_progress ftp_location (JObj one_task_done) bare_world))
     = (Ok empty_dict, []).
Proof.
  destruct (unknown_scheme_saves_but_never_loads ftp_location
              (JObj one_task_done) bare_world) as (_ & H2 & H3).
  - discriminate.
  - reflexivity.
  - reflexivity.
  - split; [apply H2; reflexivity | exact H3].
Defined.

(** ** The lazy s3 client *)

(** X11: [get_s3_client] creates the client at most once.  After a call that
    returned a client, every later call returns that same client without
    importing or creating anything, whatever has become of [boto3] or of the
    credentials since; a call that raised leaves the global empty, so the next
    call tries again from the start. *)
Theorem get_s3_client_creates_once {Client : Type}
    (import_boto3 import_boto3' : option exn)
    (new_client new_client' : result Client) (cache : option Client) :
  match get_s3_client import_boto3 new_client cache with
  | (Ok c, cache', _) =>
      cache' = Some c
      /\ get_s3_client import_boto3' new_client' cache' = (Ok c, Some c, [])
  | (Raise e, cache', _) =>
      cache = None /\ cache' = None
      /\ get_s3_client import_boto3' new_client' cache'
         = get_s3_client import_boto3' new_client' None
  end.
Proof.
  unfold get_s3_client.
  destruct cache as [c |]; [split; reflexivity |].
  destruct import_boto3 as [e |]; [repeat split; reflexivity |].
  destruct new_client as [c | e]; repeat split; reflexivity.
Qed.

(** * Further properties of the roll-ups *)

(** ** Bounds *)

Lemma completed_le_tasks (progress : gmap string json) (sub : string * list string) :
  (0 <= completed_in progress sub <= tasks_in sub)%Z.
Proof.
  unfold completed_in, tasks_in.
  pose proof (List.filter_length_le
                (fun task => isComplete progress (full_key (fst sub) task))
                (snd sub)).
  lia.
Qed.

Lemma sum_completed_le_tasks (progress : gmap string json)
    (subsections : list (string * list string)) :
  (0 <= sumZ (map (completed_in progress) subsections)
   <= sumZ (map tasks_in subsections))%Z.
Proof.
  induction subsections as [| sub subsections IH]; cbn [map sumZ fold_right];
    [lia |].
  pose proof (completed_le_tasks progress sub).
  unfold sumZ in IH. lia.
Qed.

Lemma percent_bounds (c t : Z) :
  (0 <= c <= t)%Z -> 0 <= percent c t / 100 /\ percent c t / 100 <= 1.
Proof.
  intros Hct. rewrite percent_as_fraction.
  destruct (Z.ltb_spec 0 t) as [Ht | Ht].
  - apply fraction_bounds; assumption.
  - split; vm_compute; discriminate.
Qed.

Lemma dict_get_Forall {A} (P : A -> Prop) (d : list (string * A))
    (key : string) (default : A) :
  Forall (fun kv => P (snd kv)) d -> P default -> P (dict_get d key default).
Proof.
  intros Hd Hdef. induction Hd as [| [k v] d Hv _ IH]; cbn [dict_get];
    [exact Hdef |].
  destruct (String.eqb k key); [exact Hv | exact IH].
Qed.

Lemma calculate_over_bounds (data : list (string * list (string * list string)))
    (progress : gmap string json) :
  Forall (fun kv : string * Q => 0 <= snd kv / 100 /\ snd kv / 100 <= 1)
    (fst (fst (calculate_over data progress))).
Proof.
  unfold calculate_over; cbn [fst]. rewrite map_map.
  apply List.Forall_forall. intros kv Hin.
  apply in_map_iff in Hin as ([name subsections] & <- & _).
  rewrite count_section_spec. cbn [snd].
  apply percent_bounds, sum_completed_le_tasks.
Qed.

Lemma section_ratio_bounds (progress : gmap string json) (main_section : string) :
  0 <= section_ratio progress main_section
  /\ section_ratio progress main_section <= 1.
Proof.
  unfold section_ratio, calculate_section_progress.
  apply (dict_get_Forall (fun q : Q => 0 <= q / 100 /\ q / 100 <= 1)).
  - apply calculate_over_bounds.
  - split; vm_compute; discriminate.
Qed.

Lemma dict_get_missing {A} (d : list (string * A)) (key : string) (default : A) :
  ~ In key (map fst d) -> dict_get d key default = default.
Proof.
  induction d as [| [k v] d IH]; intros Hk; cbn [dict_get]; [reflexivity |].
  cbn [map fst In] in Hk.
  destruct (String.eqb_spec k key) as [-> | _]; [tauto | apply IH; tauto].
Qed.

Lemma calculate_over_keys (data : list (string * list (string * list string)))
    (progress : gmap string json) :
  map fst (fst (fst (calculate_over data progress))) = map fst data.
Proof.
  unfold calculate_over; cbn [fst]. rewrite !map_map.
  apply map_ext. intros [name subsections]. cbn [fst snd].
  destruct (count_section progress subsections); reflexivity.
Qed.

(** X12: for every document, whatever its values, each section ratio lies in
    [0, 1] (a name that is no main section gives 0), and so does the fraction
    behind the overall progress bar: [st.progress] is never handed a value
    outside its range. *)
Theorem ratios_stay_in_range (progress : gmap string json) :
  (forall main_section,
     0 <= section_ratio progress main_section
     /\ section_ratio progress main_section <= 1)
  /\ (forall main_section,
        ~ In main_section (map fst sections_data) ->
        section_ratio progress main_section == 0)
  /\ 0 <= overall_bar progress /\ overall_bar progress <= 1.
Proof.
  split; [apply section_ratio_bounds |].
  split.
  { intros main_section Hk. unfold section_ratio, calculate_section_progress.
    rewrite dict_get_missing by (rewrite calculate_over_keys; exact Hk).
    reflexivity. }
  rewrite overall_bar_mean, sections_data_names.
  change (length sections_data) with 5%nat.
  cbn [map sumQ fold_right]. change (inject_Z (Z.of_nat 5)) with 5.
  pose proof (section_ratio_bounds progress "foundations") as [? ?].
  pose proof (section_ratio_bounds progress "cicd") as [? ?].
  pose proof (section_ratio_bounds progress "cloud") as [? ?].
  pose proof (section_ratio_bounds progress "monitoring") as [? ?].
  pose proof (section_ratio_bounds progress "sre") as [? ?].
  split.
  - apply Qle_shift_div_l; [reflexivity | lra].
  - apply Qle_shift_div_r; [reflexivity | lra].
Qed.

(** ** The summary line *)

Lemma filter_flat_map_length {A B} (f : A -> list B) (P : B -> bool) (l : list A) :
  Z.of_nat (length (List.filter P (flat_map f l)))
  = sumZ (map (fun a => Z.of_nat (length (List.filter P (f a)))) l).
Proof.
  induction l as [| a l IH]; [reflexivity |].
  cbn [flat_map map sumZ fold_right].
  rewrite List.filter_app, length_app, Nat2Z.inj_add.
  unfold sumZ in IH. rewrite IH. reflexivity.
Qed.

Lemma flat_map_length_sum {A B} (f : A -> list B) (l : list A) :
  Z.of_nat (length (flat_map f l))
  = sumZ (map (fun a => Z.of_nat (length (f a))) l).
Proof.
  induction l as [| a l IH]; [reflexivity |].
  cbn [flat_map map sumZ fold_right].
  rewrite length_app, Nat2Z.inj_add. unfold sumZ in IH. rewrite IH. reflexivity.
Qed.

Lemma completed_in_filter (progress : gmap string json) (sub : string * list string) :
  completed_in progress sub
  = Z.of_nat (length (List.filter (isComplete progress)
                        (map (full_key (fst sub)) (snd sub)))).
Proof.
  unfold completed_in. destruct sub as [k tasks]; cbn [fst snd]. f_equal.
  induction tasks as [| task tasks IH]; [reflexivity |].
  cbn [map List.filter].
  destruct (isComplete progress (full_key k task)); cbn [length]; congruence.
Qed.

Lemma totals_over (data : list (string * list (string * list string)))
    (progress : gmap string json) :
  let keys :=
    flat_map
      (fun '(_, subsections) =>
         flat_map
           (fun '(subsection_key, tasks) => map (full_key subsection_key) tasks)
           subsections)
      data in
  fold_left Z.add (map snd (snd (fst (calculate_over data progress)))) 0%Z
  = Z.of_nat (length (List.filter (isComplete progress) keys))
  /\ fold_left Z.add (map snd (snd (calculate_over data progress))) 0%Z
     = Z.of_nat (length keys).
Proof.
  cbn zeta. unfold calculate_over; cbn [fst snd].
  rewrite !fold_left_add_sumZ, !Z.add_0_l, !map_map.
  rewrite filter_flat_map_length, flat_map_length_sum.
  split; f_equal; apply map_ext; intros [name subsections]; cbn [snd];
    rewrite count_section_spec; cbn [fst snd].
  - rewrite filter_flat_map_length. f_equal. apply map_ext.
    intros [k tasks]. rewrite completed_in_filter. reflexivity.
  - rewrite flat_map_length_sum. f_equal. apply map_ext.
    intros [k tasks]. unfold tasks_in. cbn [snd]. rewrite length_map.
    reflexivity.
Qed.

Lemma totals_count (progress : gmap string json) :
  totals progress
  = (Z.of_nat (length (List.filter (isComplete progress) catalogue_keys)),
     189%Z).
Proof.
  unfold totals, calculate_section_progress.
  pose proof (totals_over sections_data progress) as [Hc Ht].
  destruct (calculate_over sections_data progress) as [[pd td] cd].
  cbn [fst snd] in Hc, Ht. rewrite Hc, Ht. reflexivity.
Qed.

Lemma filter_length_flip {A} (P Q : A -> bool) (k : A) (l : list A) :
  NoDup l -> In k l ->
  (forall x, x <> k -> Q x = P x) ->
  P k = false -> Q k = true ->
  length (List.filter Q l) = S (length (List.filter P l)).
Proof.
  intros Hnd Hin Hother HP HQ.
  induction l as [| x l IH]; [destruct Hin |].
  apply NoDup_cons in Hnd as [Hx Hnd]. rewrite list_elem_of_In in Hx.
  cbn [List.filter].
  destruct Hin as [-> | Hin].
  - rewrite HP, HQ. cbn [length]. f_equal.
    f_equal. apply List.filter_ext_in. intros y Hy. apply Hother.
    intros ->. exact (Hx Hy).
  - rewrite (Hother x) by (intros ->; exact (Hx Hin)).
    destruct (P x); cbn [length]; rewrite (IH Hnd Hin); reflexivity.
Qed.

Lemma catalogue_keys_NoDup : NoDup catalogue_keys.
Proof. apply (bool_decide_unpack _). vm_compute. exact I. Qed.

(** X13: the summary line counts every task of the catalogue exactly once.
    For every document the task total is 189 and the completed total is the
    number of catalogue keys whose entry is truthy, between 0 and 189.
    Setting the entry of one catalogue task that is not complete to [True]
    raises the completed total by exactly one, and changing an entry under
    any other key leaves both totals as they are. *)
Theorem summary_counts_each_task_once (progress : gmap string json) :
  totals progress
  = (Z.of_nat (length (List.filter (isComplete progress) catalogue_keys)),
     189%Z)
  /\ (0 <= fst (totals progress) <= 189)%Z
  /\ (forall key,
        In key catalogue_keys ->
        isComplete progress key = false ->
        fst (totals (<[key := JBool true]> progress))
        = (fst (totals progress) + 1)%Z)
  /\ (forall key v,
        ~ In key catalogue_keys ->
        totals (<[key := v]> progress) = totals progress).
Proof.
  split; [apply totals_count |].
  split.
  { rewrite totals_count; cbn [fst].
    pose proof (List.filter_length_le (isComplete progress) catalogue_keys) as H.
    change (length catalogue_keys) with 189%nat in H. lia. }
  split.
  - intros key Hin Hk. rewrite !totals_count; cbn [fst].
    rewrite (filter_length_flip (isComplete progress)
               (isComplete (<[key := JBool true]> progress)) key);
      [lia | exact catalogue_keys_NoDup | exact Hin | | exact Hk |].
    + intros x Hx. unfold isComplete, get_flag.
      rewrite lookup_insert_ne by congruence. reflexivity.
    + unfold isComplete, get_flag. rewrite lookup_insert_eq. reflexivity.
  - intros key v Hk. rewrite !totals_count. f_equal. f_equal. f_equal.
    apply List.filter_ext_in. intros x Hx. unfold isComplete, get_flag.
    rewrite lookup_insert_ne by (intros ->; exact (Hk Hx)). reflexivity.
Qed.

(** ** What drawing the page leaves in the document *)

Lemma persistent_checkbox_bool_at (checkbox : string -> json -> string -> bool)
    (label key k : string) (progress : gmap string json) :
  bool_at progress k \/ key = k ->
  bool_at (snd (persistent_checkbox checkbox label key progress)) k.
Proof.
  unfold persistent_checkbox, bool_at; cbn [snd]. intros H.
  destruct (decide (key = k)) as [-> | Hne].
  - eexists. apply lookup_insert_eq.
  - rewrite lookup_insert_ne by exact Hne. destruct H; [assumption | congruence].
Qed.

Lemma subtask_loop_bool_at (checkbox : string -> json -> string -> bool)
    (section_key k : string) (subtasks : list (string * string))
    (progress : gmap string json) :
  bool_at progress k
  \/ In k (map (fun kv => full_key section_key (fst kv)) subtasks) ->
  bool_at (snd (subtask_loop checkbox section_key subtasks progress)) k.
Proof.
  revert progress.
  induction subtasks as [| [subtask_key name] subtasks IH]; intros progress H;
    cbn [subtask_loop].
  - destruct H as [H | []]. exact H.
  - cbn [map fst In] in H.
    pose proof (persistent_checkbox_bool_at checkbox name
                  (full_key section_key subtask_key) k progress) as Hone.
    destruct (persistent_checkbox checkbox name
                (full_key section_key subtask_key) progress) as [value progress1].
    specialize (IH progress1).
    destruct (subtask_loop checkbox section_key subtasks progress1)
      as [subtask_progress progress2].
    cbn [snd] in *. apply IH. tauto.
Qed.

Lemma render_panels_bool_at (checkbox : string -> json -> string -> bool)
    (k : string) (panels : list Panel) (progress : gmap string json) :
  bool_at progress k \/ In k (flat_map panel_keys panels) ->
  bool_at (snd (render_panels checkbox panels progress)) k.
Proof.
  revert progress.
  induction panels as [| p panels IH]; intros progress H; cbn [render_panels].
  - destruct H as [H | []]. exact H.
  - cbn [flat_map] in H. rewrite in_app_iff in H.
    unfold create_subtask_section.
    pose proof (subtask_loop_bool_at checkbox (section_key p) k (subtasks p)
                  progress) as Hone.
    destruct (subtask_loop checkbox (section_key p) (subtasks p) progress)
      as [sp progress1].
    specialize (IH progress1).
    destruct (render_panels checkbox panels progress1) as [all progress2].
    cbn [snd] in *. apply IH. unfold panel_keys in H. tauto.
Qed.

Lemma render_page_bool_at (checkbox : string -> json -> string -> bool)
    (k : string) (sections : list (list Panel)) (progress : gmap string json) :
  bool_at progress k \/ In k (flat_map (flat_map panel_keys) sections) ->
  bool_at (snd (render_page checkbox sections progress)) k.
Proof.
  revert progress.
  induction sections as [| panels sections IH]; intros progress H;
    cbn [render_page].
  - destruct H as [H | []]. exact H.
  - cbn [flat_map] in H. rewrite in_app_iff in H.
    pose proof (render_panels_bool_at checkbox k panels progress) as Hone.
    destruct (render_panels checkbox panels progress) as [all progress1].
    specialize (IH progress1).
    destruct (render_page checkbox sections progress1) as [alls progress2].
    cbn [snd] in *. apply IH. tauto.
Qed.

(** X14: drawing the page normalises the document.  Whatever the document
    held and whatever the boxes return, afterwards every key of the catalogue
    is present with a boolean (absent keys and values of other types
    included), and every other key holds exactly what it held: the key set
    grows to the old keys together with the 189 catalogue keys. *)
Theorem drawing_the_page_normalises (checkbox : string -> json -> string -> bool)
    (progress : gmap string json) :
  let progress' := snd (render_page checkbox page progress) in
  (forall key, In key catalogue_keys -> bool_at progress' key)
  /\ (forall key, ~ In key catalogue_keys -> progress' !! key = progress !! key)
  /\ dom progress' = dom progress ∪ list_to_set catalogue_keys.
Proof.
  cbn zeta.
  assert (H1 : forall key, In key catalogue_keys ->
                 bool_at (snd (render_page checkbox page progress)) key).
  { intros key Hin. apply render_page_bool_at. right.
    fold page_keys. rewrite page_keys_catalogue. exact Hin. }
  assert (H2 : forall key, ~ In key catalogue_keys ->
                 snd (render_page checkbox page progress) !! key = progress !! key).
  { intros key Hk. apply render_page_frame.
    fold page_keys. rewrite page_keys_catalogue. exact Hk. }
  split; [exact H1 |]. split; [exact H2 |].
  apply set_eq. intros key.
  rewrite elem_of_union, !elem_of_dom, elem_of_list_to_set, list_elem_of_In.
  destruct (In_dec String.string_dec key catalogue_keys) as [Hin | Hout].
  - split; [tauto |]. intros _. destruct (H1 key Hin) as [b Hb].
    rewrite Hb. eexists; reflexivity.
  - rewrite (H2 key Hout). tauto.
Qed.

(** ** The captions and the overview *)

Lemma subtask_loop_stores (checkbox : string -> json -> string -> bool)
    (section_key : string) (subtasks : list (string * string))
    (progress : gmap string json) :
  NoDup (map (fun kv => full_key section_key (fst kv)) subtasks) ->
  map fst (fst (subtask_loop checkbox section_key subtasks progress))
  = map fst subtasks
  /\ stored (snd (subtask_loop checkbox section_key subtasks progress))
       section_key (fst (subtask_loop checkbox section_key subtasks progress)).
Proof.
  revert progress.
  induction subtasks as [| [subtask_key name] subtasks IH]; intros progress Hnd;
    cbn [subtask_loop]; [split; [reflexivity | constructor] |].
  cbn [map fst] in Hnd. apply NoDup_cons in Hnd as [Hk Hnd].
  rewrite list_elem_of_In in Hk.
  unfold persistent_checkbox.
  set (value := checkbox name (get_flag progress (full_key section_key subtask_key))
                  (full_key section_key subtask_key)).
  set (progress1 := <[full_key section_key subtask_key := JBool value]> progress).
  specialize (IH progress1 Hnd).
  pose proof (subtask_loop_frame checkbox section_key
                (full_key section_key subtask_key) subtasks progress1 Hk) as Hframe.
  destruct (subtask_loop checkbox section_key subtasks progress1)
    as [subtask_progress progress2].
  cbn [fst snd] in *. destruct IH as [IHk IHs].
  split; [cbn [map fst]; f_equal; exact IHk |].
  constructor; [| exact IHs].
  cbn [fst snd]. rewrite Hframe. apply lookup_insert_eq.
Qed.

Lemma stored_frame (progress progress' : gmap string json) (section_key : string)
    (flags : list (string * bool)) :
  (forall k, In k (map (full_key section_key) (map fst flags)) ->
             progress' !! k = progress !! k) ->
  stored progress section_key flags -> stored progress' section_key flags.
Proof.
  unfold stored. intros Hsame Hst.
  induction Hst as [| kv flags Hkv _ IH]; constructor.
  - rewrite Hsame; [exact Hkv | left; reflexivity].
  - apply IH. intros k Hk. apply Hsame. right. exact Hk.
Qed.

Lemma panel_stored_frame (progress progress' : gmap string json) (p : Panel)
    (flags : list (string * bool)) :
  (forall k, In k (panel_keys p) -> progress' !! k = progress !! k) ->
  panel_stored progress p flags -> panel_stored progress' p flags.
Proof.
  intros Hsame [Hk Hst]. split; [exact Hk |].
  apply (stored_frame progress); [| exact Hst].
  intros k Hin. apply Hsame. unfold panel_keys.
  rewrite Hk, map_map in Hin. exact Hin.
Qed.

Lemma panels_stored_frame (progress progress' : gmap string json)
    (panels : list Panel) (all : list (list (string * bool))) :
  (forall k, In k (flat_map panel_keys panels) -> progress' !! k = progress !! k) ->
  Forall2 (panel_stored progress) panels all ->
  Forall2 (panel_stored progress') panels all.
Proof.
  intros Hsame H. induction H as [| p flags panels all Hp _ IH]; constructor.
  - apply (panel_stored_frame progress); [| exact Hp].
    intros k Hk. apply Hsame. cbn [flat_map]. apply in_or_app. left. exact Hk.
  - apply IH. intros k Hk. apply Hsame. cbn [flat_map]. apply in_or_app.
    right. exact Hk.
Qed.

Lemma render_panels_stores (checkbox : string -> json -> string -> bool)
    (panels : list Panel) (progress : gmap string json) :
  NoDup (flat_map panel_keys panels) ->
  Forall2 (panel_stored (snd (render_panels checkbox panels progress))) panels
    (fst (render_panels checkbox panels progress)).
Proof.
  revert progress.
  induction panels as [| p panels IH]; intros progress Hnd; cbn [render_panels];
    [constructor |].
  cbn [flat_map] in Hnd. apply NoDup_app in Hnd as (Hp & Hdisj & Hrest).
  unfold create_subtask_section.
  pose proof (subtask_loop_stores checkbox (section_key p) (subtasks p) progress Hp)
    as Hhead.
  destruct (subtask_loop checkbox (section_key p) (subtasks p) progress)
    as [sp progress1].
  specialize (IH progress1 Hrest).
  pose proof (fun k => render_panels_frame checkbox k panels progress1) as Hframe.
  destruct (render_panels checkbox panels progress1) as [all progress2].
  cbn [fst snd] in *. constructor; [| exact IH].
  apply (panel_stored_frame progress1); [| exact Hhead].
  intros k Hk. apply Hframe. rewrite <- list_elem_of_In.
  apply Hdisj. apply list_elem_of_In. exact Hk.
Qed.

Lemma render_page_stores (checkbox : string -> json -> string -> bool)
    (sections : list (list Panel)) (progress : gmap string json) :
  NoDup (flat_map (flat_map panel_keys) sections) ->
  Forall2 (Forall2 (panel_stored (snd (render_page checkbox sections progress))))
    sections (fst (render_page checkbox sections progress)).
Proof.
  revert progress.
  induction sections as [| panels sections IH]; intros progress Hnd;
    cbn [render_page]; [constructor |].
  cbn [flat_map] in Hnd. apply NoDup_app in Hnd as (Hp & Hdisj & Hrest).
  pose proof (render_panels_stores checkbox panels progress Hp) as Hhead.
  destruct (render_panels checkbox panels progress) as [all progress1].
  specialize (IH progress1 Hrest).
  pose proof (fun k => render_page_frame checkbox k sections progress1) as Hframe.
  destruct (render_page checkbox sections progress1) as [alls progress2].
  cbn [fst snd] in *. constructor; [| exact IH].
  apply (panels_stored_frame progress1); [| exact Hhead].
  intros k Hk. apply Hframe. rewrite <- list_elem_of_In.
  apply Hdisj. apply list_elem_of_In. exact Hk.
Qed.

Lemma panel_stored_counts (progress : gmap string json) (p : Panel)
    (flags : list (string * bool)) :
  panel_stored progress p flags ->
  sum_values flags = completed_in progress (panel_subsection p)
  /\ len flags = tasks_in (panel_subsection p).
Proof.
  intros [Hk Hst]. unfold completed_in, tasks_in, panel_subsection, len.
  cbn [fst snd]. rewrite <- Hk, length_map, sum_values_count.
  split; [| reflexivity]. f_equal. clear Hk.
  induction Hst as [| [k b] flags Hkv _ IH]; [reflexivity |].
  cbn [map fst List.filter snd] in *.
  unfold isComplete at 1, get_flag. rewrite Hkv. cbn [truthy].
  destruct b; cbn [length]; rewrite IH; reflexivity.
Qed.

Lemma panels_stored_percent (progress : gmap string json) (panels : list Panel)
    (all : list (list (string * bool))) :
  Forall2 (panel_stored progress) panels all ->
  page_section_progress all
  = percent (fst (count_section progress (map panel_subsection panels)))
            (snd (count_section progress (map panel_subsection panels))).
Proof.
  intros H. rewrite count_section_spec; cbn [fst snd].
  unfold page_section_progress, percent, page_total, page_count.
  rewrite !fold_left_add_sumZ, !Z.add_0_l.
  assert (Hsum : map sum_values all
                 = map (completed_in progress) (map panel_subsection panels)
                 /\ map len all = map tasks_in (map panel_subsection panels)).
  { induction H as [| p flags panels all Hp _ [IH1 IH2]];
      [split; reflexivity |].
    destruct (panel_stored_counts _ _ _ Hp) as [Hc Ht].
    cbn [map]. split; congruence. }
  destruct Hsum as [-> ->]. reflexivity.
Qed.

Lemma page_matches_sections_data :
  In ("foundations", map panel_subsection foundations_page) sections_data
  /\ In ("cicd", map panel_subsection cicd_page) sections_data
  /\ In ("cloud", map panel_subsection cloud_page) sections_data
  /\ In ("monitoring", map panel_subsection monitoring_page) sections_data
  /\ In ("sre", map panel_subsection sre_page) sections_data.
Proof.
  repeat split.
  - left; reflexivity.
  - do 1 right; left; reflexivity.
  - do 2 right; left; reflexivity.
  - do 3 right; left; reflexivity.
  - do 4 right; left; reflexivity.
Qed.

(** X15: the two ways the program computes a section percentage agree.  The
    percentage shown under each page section, computed from the flags the
    boxes returned, is the percentage [calculate_section_progress] computes
    for that section from the document as the page left it, for all five
    sections, every document and every way of ticking the boxes: the overview
    of the next run shows what the captions of this run showed. *)
Theorem captions_agree_with_overview
    (checkbox : string -> json -> string -> bool) (progress : gmap string json) :
  map page_section_progress (fst (render_page checkbox page progress))
  = map (fun main_section =>
           dict_get
             (fst (fst (calculate_section_progress
                          (snd (render_page checkbox page progress)))))
             main_section 0)
      (map fst sections_data).
Proof.
  assert (Hnd : NoDup (flat_map (flat_map panel_keys) page)).
  { fold page_keys. rewrite page_keys_catalogue. exact catalogue_keys_NoDup. }
  pose proof (render_page_stores checkbox page progress Hnd) as Hst.
  destruct (render_page checkbox page progress) as [alls progress'].
  cbn [fst snd] in *.
  rewrite sections_data_names. unfold calculate_section_progress.
  unfold page in Hst.
  repeat match goal with
         | H : Forall2 _ (_ :: _) _ |- _ =>
             apply Forall2_cons_inv_l in H as (? & ? & ? & H & ->)
         | H : Forall2 _ [] _ |- _ => apply Forall2_nil_inv_l in H; subst
         end.
  cbn [map].
  repeat match goal with
         | H : Forall2 (panel_stored _) ?panels ?all |- _ =>
             rewrite (panels_stored_percent _ _ _ H); clear H
         end.
  destruct page_matches_sections_data as (H1 & H2 & H3 & H4 & H5).
  rewrite (calculate_over_get _ progress' _ _ sections_data_NoDup H1).
  rewrite (calculate_over_get _ progress' _ _ sections_data_NoDup H2).
  rewrite (calculate_over_get _ progress' _ _ sections_data_NoDup H3).
  rewrite (calculate_over_get _ progress' _ _ sections_data_NoDup H4).
  rewrite (calculate_over_get _ progress' _ _ sections_data_NoDup H5).
  reflexivity.
Qed.

(** ** The ratio of a panel *)

Lemma append_inj (p a b : string) : p ++ a = p ++ b -> a = b.
Proof.
  induction p as [| c p IH]; intros H.
  - rewrite !append_nil in H. exact H.
  - rewrite !append_cons in H. injection H as H. apply IH, H.
Qed.

Lemma full_key_inj (section_key k1 k2 : string) :
  full_key section_key k1 = full_key section_key k2 -> k1 = k2.
Proof.
  unfold full_key. intros H.
  apply append_inj in H. apply append_inj in H. exact H.
Qed.

Lemma full_keys_NoDup (section_key : string) (subtasks : list (string * string)) :
  NoDup (map fst subtasks) ->
  NoDup (map (fun kv => full_key section_key (fst kv)) subtasks).
Proof.
  induction subtasks as [| [k name] subtasks IH]; intros Hnd; cbn [map fst] in *.
  - constructor.
  - apply NoDup_cons in Hnd as [Hk Hnd]. apply NoDup_cons.
    split; [| apply IH, Hnd].
    rewrite list_elem_of_In in *. intros Hin. apply Hk.
    apply in_map_iff in Hin as ([k' name'] & Heq & Hin'). cbn [fst] in Heq.
    apply full_key_inj in Heq. subst k'.
    apply in_map_iff. exists (k, name'). split; [reflexivity | exact Hin'].
Qed.

Lemma subtask_loop_ticks (checkbox : string -> json -> string -> bool)
    (section_key : string) (subtasks : list (string * string))
    (progress : gmap string json) :
  NoDup (map (fun kv => full_key section_key (fst kv)) subtasks) ->
  fst (subtask_loop checkbox section_key subtasks progress)
  = map (tick checkbox section_key progress) subtasks.
Proof.
  revert progress.
  induction subtasks as [| [subtask_key name] subtasks IH]; intros progress Hnd;
    cbn [subtask_loop]; [reflexivity |].
  cbn [map fst] in Hnd. apply NoDup_cons in Hnd as [Hk Hnd].
  rewrite list_elem_of_In in Hk.
  unfold persistent_checkbox.
  set (value := checkbox name (get_flag progress (full_key section_key subtask_key))
                  (full_key section_key subtask_key)).
  set (progress1 := <[full_key section_key subtask_key := JBool value]> progress).
  specialize (IH progress1 Hnd).
  destruct (subtask_loop checkbox section_key subtasks progress1)
    as [subtask_progress progress2].
  cbn [fst] in *. cbn [map]. unfold tick at 1. cbn [fst snd]. fold value.
  f_equal. rewrite IH. apply map_ext_in. intros [k' name'] Hin.
  unfold tick, get_flag; cbn [fst snd]. unfold progress1.
  rewrite lookup_insert_ne; [reflexivity |].
  intros Heq. apply Hk. apply in_map_iff. exists (k', name').
  split; [cbn [fst]; symmetry; exact Heq | exact Hin].
Qed.

Lemma truediv_defined (a b : Z) :
  (0 < b)%Z -> truediv a b = Some (inject_Z a / inject_Z b).
Proof. intros Hb. unfold truediv. destruct (Z.eqb_spec b 0); [lia | reflexivity]. Qed.

Lemma subsectionRatio_bounds (progress : gmap string json)
    (sub : string * list string) :
  0 <= subsectionRatio progress sub /\ subsectionRatio progress sub <= 1.
Proof.
  unfold subsectionRatio. destruct (snd sub) as [| task tasks] eqn:Hsub.
  - split; vm_compute; discriminate.
  - apply fraction_bounds.
    + unfold completed_in, tasks_in.
      pose proof (List.filter_length_le
                    (fun task => isComplete progress (full_key (fst sub) task))
                    (snd sub)). lia.
    + unfold tasks_in. rewrite Hsub. cbn [length]. lia.
Qed.

(** [section_progress] never raises: the quotient is taken only of a dict
    with entries. *)
Lemma section_progress_returns (items : list (string * bool)) :
  exists pct,
    section_progress items = Some pct
    /\ 0 <= pct / 100 /\ pct / 100 <= 1
    /\ (items = [] -> pct = 0)
    /\ (items <> [] ->
        pct / 100 == inject_Z (sum_values items) / inject_Z (len items)).
Proof.
  destruct items as [| kv rest].
  - exists 0. split; [reflexivity |].
    split; [vm_compute; discriminate |]. split; [vm_compute; discriminate |].
    split; [reflexivity | congruence].
  - assert (Hne : kv :: rest <> []) by discriminate.
    pose proof (len_pos _ Hne) as Hpos.
    exists (inject_Z (sum_values (kv :: rest)) / inject_Z (len (kv :: rest)) * 100).
    split.
    { unfold section_progress. rewrite (truediv_defined _ _ Hpos). reflexivity. }
    destruct (fraction_bounds _ _ (sum_values_bounds (kv :: rest)) Hpos)
      as [Hlo Hhi].
    split; [rewrite percent_scale; exact Hlo |].
    split; [rewrite percent_scale; exact Hhi |].
    split; [congruence |].
    intros _. apply percent_scale.
Qed.

(** C8: the ratio of a subsection is the number of its ticked boxes over the
    number of its tasks.  [create_subtask_section] on a panel (its task keys
    those of a dict, hence distinct) returns one flag per task, in order,
    each what the task's box returned; the document afterwards holds these
    flags under the panel's keys.  For a panel with tasks, the quotient the
    program takes has a divisor that is not zero; the fraction handed to the
    progress bar is that quotient, the number of boxes that returned [True]
    over the number of tasks, which is [subsectionRatio] of the document
    afterwards; it lies in [0, 1], and [section_progress] of the flags is
    its hundredfold.  For a panel without tasks the same quotient would
    raise; the program does not take it: no bar is drawn,
    [section_progress] returns 0, and [subsectionRatio] is 0. *)
Theorem subsection_ratio_counts_the_ticks
    (checkbox : string -> json -> string -> bool) (main_task : string)
    (subtasks : list (string * string)) (section_key : string)
    (progress : gmap string json) :
  NoDup (map fst subtasks) ->
  exists flags bar progress',
    create_subtask_section checkbox main_task subtasks section_key progress
    = (flags, bar, progress')
    /\ flags = map (tick checkbox section_key progress) subtasks
    /\ stored progress' section_key flags
    /\ 0 <= subsectionRatio progress' (section_key, map fst subtasks)
    /\ subsectionRatio progress' (section_key, map fst subtasks) <= 1
    /\ match subtasks with
       | [] =>
           bar = None
           /\ truediv (sum_values flags) (len flags) = None
           /\ section_progress flags = Some 0
           /\ subsectionRatio progress' (section_key, map fst subtasks) == 0
       | _ :: _ =>
           exists q r,
             truediv (sum_values flags) (len flags) = Some q
             /\ section_progress flags = Some (q * 100)
             /\ bar = Some r
             /\ r == q
             /\ 0 <= r /\ r <= 1
             /\ q == inject_Z (Z.of_nat (length (List.filter snd flags)))
                     / inject_Z (Z.of_nat (length subtasks))
             /\ q == subsectionRatio progress' (section_key, map fst subtasks)
       end.
Proof.
  intros Hnd0.
  pose proof (full_keys_NoDup section_key subtasks Hnd0) as Hnd.
  pose proof (subtask_loop_ticks checkbox section_key subtasks progress Hnd)
    as Hticks.
  pose proof (subtask_loop_stores checkbox section_key subtasks progress Hnd)
    as [Hkeys Hst].
  unfold create_subtask_section.
  destruct (subtask_loop checkbox section_key subtasks progress)
    as [flags progress'].
  cbn [fst snd] in Hticks, Hkeys, Hst.
  eexists flags, _, progress'. split; [reflexivity |].
  split; [exact Hticks |]. split; [exact Hst |].
  destruct (subsectionRatio_bounds progress' (section_key, map fst subtasks))
    as [Hlo Hhi].
  split; [exact Hlo |]. split; [exact Hhi |].
  destruct (panel_stored_counts progress'
              (mkPanel main_task subtasks section_key) flags (conj Hkeys Hst))
    as [Hsum Hlen].
  unfold panel_subsection in Hsum, Hlen.
  cbn [Catalogue.section_key Catalogue.subtasks] in Hsum, Hlen.
  destruct subtasks as [| kv rest].
  - cbn [map] in Hticks. subst flags. repeat split; reflexivity.
  - assert (Hpos : (0 < len flags)%Z).
    { rewrite Hlen. unfold tasks_in. cbn [snd map length]. lia. }
    exists (inject_Z (sum_values flags) / inject_Z (len flags)),
           (inject_Z (sum_values flags) / inject_Z (len flags) * 100 / 100).
    split; [apply truediv_defined, Hpos |].
    split.
    { unfold section_progress. rewrite (truediv_defined _ _ Hpos).
      destruct flags; [discriminate Hticks | reflexivity]. }
    assert (Hratio : inject_Z (sum_values flags) / inject_Z (len flags)
                     == subsectionRatio progress'
                          (section_key, map fst (kv :: rest))).
    { unfold subsectionRatio. cbn [snd map].
      rewrite Hsum, Hlen. reflexivity. }
    split; [reflexivity |].
    split; [apply percent_scale |].
    split; [rewrite percent_scale, Hratio; exact Hlo |].
    split; [rewrite percent_scale, Hratio; exact Hhi |].
    split; [| exact Hratio].
    rewrite sum_values_count. unfold len.
    rewrite Hticks at 2. rewrite length_map. reflexivity.
Qed.

(** The scenario [{a: True, b: False}]: the panel's flags are these and its
    ratio is one half. *)
Lemma subsection_ratio_counts_the_ticks_witness :
  NoDup (map fst ab_subtasks)
  /\ exists r doc',
       create_subtask_section idle_checkbox "Panel" ab_subtasks "sub" a_done
       = ([("a", true); ("b", false)], Some r, doc')
       /\ r == 1 # 2
       /\ subsectionRatio doc' ("sub", ["a"; "b"]) == 1 # 2.
Proof.
  assert (Hnd : NoDup (map fst ab_subtasks)).
  { apply (bool_decide_unpack _). vm_compute. exact I. }
  split; [exact Hnd |].
  destruct (subsection_ratio_counts_the_ticks idle_checkbox "Panel" ab_subtasks
              "sub" a_done Hnd)
    as (flags & bar & doc' & Hrun & Hflags & _ & _ & _ & q & r & _ & _ & Hbar
        & Hr & _ & _ & Hq & Hratio).
  vm_compute in Hflags. subst flags bar.
  exists r, doc'. split; [exact Hrun |].
  cbn [List.filter snd length ab_subtasks] in Hq.
  assert (Hhalf : q == 1 # 2) by (rewrite Hq; reflexivity).
  split.
  - rewrite Hr. exact Hhalf.
  - cbn [map fst ab_subtasks] in Hratio. rewrite <- Hratio. exact Hhalf.
Defined.

(** * Further properties of the session *)

(** ** Initialisation *)

Lemma bind_ok {A B} (m : M A) (f : A -> M B) (b : B) (t : list Event) :
  bind m f = (Ok b, t) ->
  exists a t1 t2, m = (Ok a, t1) /\ f a = (Ok b, t2) /\ t = (t1 ++ t2)%list.
Proof.
  unfold bind. destruct m as [[a | e] t1]; [| discriminate].
  destruct (f a) as [r t2] eqn:Hf. intros H. injection H as -> <-.
  exists a, t1, t2. split; [reflexivity | split; [exact Hf | reflexivity]].
Qed.

Lemma py_get_trace (v : json) (key : string) (default : json) :
  snd (py_get v key default) = [].
Proof. destruct v; reflexivity. Qed.

(** The notes a session without notes gets from the document [p]. *)
Lemma init_notes_trace (p : json) :
  snd (do notes_data <- py_get p "notes" empty_dict;
       do a <- py_get notes_data "to_learn" (JStr "");
       do b <- py_get notes_data "in_progress" (JStr "");
       do c <- py_get notes_data "completed" (JStr "");
       ret (mkNotes a b c)) = [].
Proof.
  destruct p; try reflexivity. cbn [py_get ret bind].
  destruct (m !! "notes") as [[| | | | | m'] |]; reflexivity.
Qed.

Lemma init_session_shape (loc : string) (w : World) (s s1 : SessionState)
    (t : list Event) :
  init_session loc w s = (Ok s1, t) ->
  exists p n,
    s1 = mkSession (Some p) (Some n)
           (Some (match show_reset_confirmation s with
                  | Some b => b
                  | None => false
                  end))
    /\ match progress s with
       | Some p0 => p = p0 /\ t = []
       | None => load_progress loc w = (Ok p, t)
       end
    /\ (forall n0, notes s = Some n0 -> n = n0).
Proof.
  unfold init_session. intros H.
  apply bind_ok in H as (p & t1 & t2 & Hp & H & ->).
  apply bind_ok in H as (n & t3 & t4 & Hn & H & ->).
  injection H as <- <-. exists p, n.
  assert (Ht3 : t3 = []).
  { destruct (notes s) as [n0 |]; [unfold ret in Hn; congruence |].
    pose proof (init_notes_trace p) as Ht. rewrite Hn in Ht. exact Ht. }
  subst t3. rewrite !app_nil_r.
  split; [reflexivity |]. split.
  - destruct (progress s) as [p0 |]; [unfold ret in Hp; split; congruence |].
    exact Hp.
  - intros n0 Hn0. rewrite Hn0 in Hn. unfold ret in Hn. congruence.
Qed.

(** X16: the session initialisation loads at most once.  When the session
    already holds a document, [init_session] keeps it and touches neither
    file nor network; when it holds none, the only I/O is that of one
    [load_progress].  And whatever it returns is stable: initialising the
    returned session again, in any environment and for any location, returns
    the same session with an empty trace. *)
Theorem init_session_loads_at_most_once (loc loc' : string) (w w' : World)
    (s s1 : SessionState) (t : list Event) :
  init_session loc w s = (Ok s1, t) ->
  init_session loc' w' s1 = (Ok s1, [])
  /\ match progress s with
     | Some p => progress s1 = Some p /\ t = []
     | None =>
         exists p, progress s1 = Some p /\ load_progress loc w = (Ok p, t)
     end.
Proof.
  intros H. apply init_session_shape in H as (p & n & -> & Hp & _).
  split; [reflexivity |].
  cbn [progress]. destruct (progress s) as [p0 |].
  - destruct Hp as [-> ->]. split; reflexivity.
  - exists p. split; [reflexivity | exact Hp].
Qed.

Lemma init_session_loads_at_most_once_witness :
  init_session default_S3_LOCATION world_with_remote session_confirming
  = (Ok session_confirming, []).
Proof.
  destruct (init_session_loads_at_most_once "" default_S3_LOCATION
              bare_world world_with_remote session_confirming
              session_confirming []) as (H & _).
  - reflexivity.
  - exact H.
Defined.

(** X17: nothing checks that what was loaded is a document.  When
    [load_progress] returns a value that is no dict (a list, a string, a
    number), or a dict whose [notes] entry is no dict, the initialisation of a
    fresh session raises [AttributeError]; the run of the script stops there,
    having done nothing but the load: no box is drawn and nothing is
    saved. *)
Theorem loaded_value_must_be_a_document (loc : string) (ui : UI) (w : World)
    (v : json) :
  fst (load_progress loc w) = Ok v ->
  is_dict v = false
  \/ (exists m x, v = JObj m /\ m !! "notes" = Some x /\ is_dict x = false) ->
  exists msg,
    init_session loc w cleared
    = (Raise (mkExn AttributeError msg), snd (load_progress loc w))
    /\ script_run loc ui cleared w
       = (Raise (mkExn AttributeError msg), snd (load_progress loc w)).
Proof.
  intros Hload Hbad.
  assert (Hinit : exists msg,
            init_session loc w cleared
            = (Raise (mkExn AttributeError msg), snd (load_progress loc w))).
  { unfold init_session; cbn [progress notes cleared].
    destruct (load_progress loc w) as [r t0]; cbn [fst snd] in *. subst r.
    cbn [bind].
    destruct Hbad as [Hv | (m & x & -> & Hx & Hd)].
    - destruct v; try discriminate Hv; cbn; rewrite app_nil_r;
        eexists; reflexivity.
    - cbn [py_get ret bind]. rewrite Hx.
      destruct x; try discriminate Hd; cbn; rewrite app_nil_r;
        eexists; reflexivity. }
  destruct Hinit as (msg & Hinit). exists msg. split; [exact Hinit |].
  unfold script_run. rewrite Hinit. reflexivity.
Qed.

Lemma loaded_value_must_be_a_document_witness :
  exists msg,
    script_run "" idle cleared world_with_list_file
    = (Raise (mkExn AttributeError msg), [EvExists; EvReadLocal]).
Proof.
  destruct (loaded_value_must_be_a_document "" idle world_with_list_file
              (JArr [])) as (msg & _ & H).
  - reflexivity.
  - left. reflexivity.
  - exists msg. exact H.
Defined.

(** ** One run of the script *)

(** The document a run hands to [save_progress]. *)
Lemma script_run_shape (loc : string) (ui : UI) (s s' : SessionState)
    (w w' : World) (rerun : bool) (t : list Event) :
  script_run loc ui s w = (Ok (s', w', rerun), t) ->
  exists s1 t0 doc n t2,
    init_session loc w s = (Ok s1, t0)
    /\ progress s1 = Some (JObj doc)
    /\ notes s1 = Some n
    /\ reset_block ui
         (mkSession
            (Some (JObj (<["notes" := notes_dict (edit_notes ui n)]>
                           (snd (render_page (checkbox ui) page doc)))))
            (Some (edit_notes ui n)) (show_reset_confirmation s1))
         (fst (save_progress loc
                 (JObj (<["notes" := notes_dict (edit_notes ui n)]>
                          (snd (render_page (checkbox ui) page doc)))) w))
       = (Ok (s', w', rerun), t2)
    /\ t = (t0 ++ snd (save_progress loc
                         (JObj (<["notes" := notes_dict (edit_notes ui n)]>
                                  (snd (render_page (checkbox ui) page doc)))) w)
              ++ t2)%list.
Proof.
  unfold script_run. intros H.
  apply bind_ok in H as (s1 & t0 & t1 & Hinit & H & ->).
  destruct (progress s1) as [[| | | | | doc] |] eqn:Hp; try discriminate H.
  destruct (notes s1) as [n |] eqn:Hn; [| discriminate H].
  exists s1, t0, doc, n.
  destruct (render_page (checkbox ui) page doc) as [alls doc1]. cbn [snd].
  unfold autosave in H.
  destruct (save_progress loc _ w) as [w1 ts]. cbn [fst snd].
  apply bind_ok in H as ([] & t3 & t2 & H3 & H & ->).
  injection H3 as <-. exists t2. repeat split; assumption.
Qed.

Lemma reset_block_cases (ui : UI) (s s' : SessionState) (w w' : World)
    (rerun : bool) (t : list Event) :
  reset_block ui s w = (Ok (s', w', rerun), t) ->
  (show_reset_confirmation s = Some true /\ button_yes ui = true
   /\ s' = cleared /\ local_file w' = None)
  \/ (progress s' = progress s /\ notes s' = notes s /\ w' = w
      /\ ~ In EvRemoveLocal t).
Proof.
  unfold reset_block. intros H.
  destruct (show_reset_confirmation s) as [[|] |]; [| | discriminate H].
  - destruct (button_yes ui).
    + left. cbn [bind emit] in H.
      destruct (local_file w) as [f |] eqn:Hf.
      * cbn [bind emit] in H. destruct (local_remove w); [discriminate H |].
        cbn in H. injection H as <- <- <- <-. repeat split; reflexivity.
      * cbn in H. injection H as <- <- <- <-. repeat split; try reflexivity.
        exact Hf.
    + right. destruct (button_cancel ui); cbn in H;
        injection H as <- <- <- <-; repeat split; try reflexivity;
        cbn; intros [Hx | []]; discriminate Hx.
  - right. destruct (button_reset ui); cbn in H;
      injection H as <- <- <- <-; repeat split; try reflexivity;
      intros [].
Qed.

Lemma notes_is_no_task : ~ In "notes" catalogue_keys.
Proof.
  rewrite <- list_elem_of_In. apply (bool_decide_unpack _). vm_compute. exact I.
Qed.

Lemma edited_notes_are_text (ui : UI) (n : Notes) :
  exists a b c, edit_notes ui n = mkNotes (JStr a) (JStr b) (JStr c).
Proof. unfold edit_notes. eexists _, _, _. reflexivity. Qed.

Lemma run_document_settled (ui : UI) (doc : gmap string json) (n : Notes) :
  settled (<["notes" := notes_dict (edit_notes ui n)]>
             (snd (render_page (checkbox ui) page doc)))
          (edit_notes ui n).
Proof.
  split; [| split; [apply lookup_insert_eq | apply edited_notes_are_text]].
  intros key Hin. unfold bool_at.
  rewrite lookup_insert_ne by (intros <-; exact (notes_is_no_task Hin)).
  apply render_page_bool_at. right. fold page_keys.
  rewrite page_keys_catalogue. exact Hin.
Qed.

(** X18: every run of the script that completes and whose notes are text
    leaves a normalised session, whatever else was loaded and whatever the
    user did.  The notes meant are those the run starts from: the session's,
    or for a fresh session the three fields taken from the loaded document
    (an absent field is the empty string; other fields of the loaded [notes]
    are dropped).  Either the reset was confirmed and the session is empty,
    or the session document holds a boolean under every catalogue key and,
    under [notes], exactly the three notes fields as strings; that same
    document is the one the run handed to the local write. *)
Theorem every_run_settles_the_session (loc : string) (ui : UI)
    (s s1 s' : SessionState) (w w' : World) (rerun : bool)
    (t0 t : list Event) (n : Notes) :
  init_session loc w s = (Ok s1, t0) ->
  notes s1 = Some n ->
  text_notes n ->
  script_run loc ui s w = (Ok (s', w', rerun), t) ->
  s' = cleared
  \/ exists doc' n',
       progress s' = Some (JObj doc') /\ notes s' = Some n'
       /\ settled doc' n'
       /\ is_notes_record (notes_dict n') = true
       /\ In (EvWriteLocal (JObj doc')) t.
Proof.
  intros Hinit Hnotes _ H.
  apply script_run_shape in H as (s2 & t1 & doc & n2 & t2 & Hinit2 & _ & Hn2 & Hr & ->).
  rewrite Hinit in Hinit2. injection Hinit2 as <- <-.
  rewrite Hnotes in Hn2. injection Hn2 as <-.
  set (doc2 := <["notes" := notes_dict (edit_notes ui n)]>
                 (snd (render_page (checkbox ui) page doc))) in *.
  apply reset_block_cases in Hr as [(_ & _ & -> & _) | (Hp & Hn & _ & _)];
    [left; reflexivity | right].
  cbn [progress notes] in Hp, Hn.
  exists doc2, (edit_notes ui n).
  split; [exact Hp |]. split; [exact Hn |].
  split; [apply run_document_settled |].
  split.
  - destruct (edited_notes_are_text ui n) as (a & b & c & ->).
    vm_compute. reflexivity.
  - apply in_or_app. right. apply in_or_app. left. apply save_progress_writes.
Qed.

Lemma fresh_run_completes (loc : string) (ui : UI) (w : World)
    (doc : gmap string json) :
  fst (load_progress loc w) = Ok (JObj doc) ->
  (forall v, doc !! "notes" = Some v -> is_dict v = true) ->
  exists s' w' rerun t,
    script_run loc ui cleared w = (Ok (s', w', rerun), t)
    /\ progress s' <> None.
Proof.
  intros Hload Hnotes.
  destruct (init_session_fresh loc w doc Hload Hnotes) as (n & Hinit).
  unfold script_run. rewrite Hinit. cbn [bind progress notes].
  destruct (render_page (checkbox ui) page doc) as [alls doc1].
  unfold autosave.
  destruct (save_progress loc _ w) as [w1 t].
  unfold reset_block; cbn [show_reset_confirmation].
  destruct (button_reset ui); cbn [ret bind];
    eexists _, _, _, _; (split; [reflexivity | discriminate]).
Qed.

Lemma every_run_settles_the_session_witness :
  init_session "" world_with_legacy_file cleared
  = (Ok (mkSession (Some (JObj with_legacy_key)) (Some blank_notes) (Some false)),
     [EvExists; EvReadLocal])
  /\ text_notes blank_notes
  /\ exists s' w' rerun t doc' n',
       script_run "" idle cleared world_with_legacy_file = (Ok (s', w', rerun), t)
       /\ progress s' = Some (JObj doc')
       /\ settled doc' n'.
Proof.
  assert (Hinit : init_session "" world_with_legacy_file cleared
                  = (Ok (mkSession (Some (JObj with_legacy_key)) (Some blank_notes)
                           (Some false)),
                     [EvExists; EvReadLocal])) by reflexivity.
  assert (Htext : text_notes blank_notes) by (exists "", "", ""; reflexivity).
  split; [exact Hinit |]. split; [exact Htext |].
  destruct (fresh_run_completes "" idle world_with_legacy_file with_legacy_key)
    as (s' & w' & rerun & t & Hrun & Hp).
  - reflexivity.
  - intros v Hv. vm_compute in Hv. discriminate Hv.
  - destruct (every_run_settles_the_session "" idle cleared _ s'
                world_with_legacy_file w' rerun _ t blank_notes
                Hinit eq_refl Htext Hrun)
      as [-> | (doc' & n' & Hp' & _ & Hs & _)].
    + exfalso. apply Hp. reflexivity.
    + exists s', w', rerun, t, doc', n'.
      split; [exact Hrun |]. split; [exact Hp' | exact Hs].
Defined.

(** ** Reset takes two steps *)

Lemma load_progress_never_removes (loc : string) (w : World) :
  ~ In EvRemoveLocal (snd (load_progress loc w)).
Proof.
  unfold load_progress, read_local, s3_fetch.
  destruct (String.eqb loc ""); [| destruct (is_http_url loc);
    [| destruct (is_s3_url loc);
       [destruct (parse_s3_url loc) as [[bucket key] | e0];
        [destruct (s3_client w) as [e1 |];
         [| unfold s3_get_object; destruct (s3_get_error w) as [e2 |];
            [| destruct (s3_store w bucket key) as [v0 | e3]]] |] |]]];
    try (destruct (http_get w loc) as [v1 | e4]);
    rewrite ?except_Exception_all;
    destruct (local_file w) as [[v | e] |];
    try (destruct (except_JSONDecodeError_FileNotFoundError e));
    rewrite ?except_Exception_all;
    cbn; intuition discriminate.
Qed.

Lemma save_progress_never_removes (loc : string) (data : json) (w : World) :
  ~ In EvRemoveLocal (snd (save_progress loc data w)).
Proof.
  unfold save_progress, write_local, s3_upload.
  destruct (local_write w) as [e |]; rewrite ?except_Exception_all;
    (destruct (String.eqb loc ""); [cbn; intuition discriminate |]);
    (destruct (is_http_url loc); [cbn; intuition discriminate |]);
    (destruct (is_s3_url loc); [| cbn; intuition discriminate]);
    (destruct (parse_s3_url loc) as [[bucket key] | e0];
     [| cbn; intuition discriminate]);
    cbn [s3_client s3_put_error with_local_file];
    (destruct (s3_client w); [cbn; intuition discriminate |]);
    (destruct (s3_put_error w); cbn; intuition discriminate).
Qed.

(** X19: deleting takes two runs.  A run of the script that starts with the
    confirmation dialog not showing (a fresh session included) never calls
    [os.remove] and never clears the session, whichever buttons are reported
    pressed: the session keeps a document, and the only effect of "Reset
    Progress" is to show the dialog and ask for a rerun. *)
Theorem reset_needs_two_runs (loc : string) (ui : UI) (s s' : SessionState)
    (w w' : World) (rerun : bool) (t : list Event) :
  show_reset_confirmation s <> Some true ->
  script_run loc ui s w = (Ok (s', w', rerun), t) ->
  ~ In EvRemoveLocal t
  /\ progress s' <> None
  /\ show_reset_confirmation s' = Some (button_reset ui)
  /\ rerun = button_reset ui
  /\ (local_write w = None -> exists d, local_file w' = Some (Ok d)).
Proof.
  intros Hflag H.
  apply script_run_shape in H
    as (s1 & t0 & doc & n & t2 & Hinit & Hp & Hn & Hr & ->).
  pose proof (init_session_shape _ _ _ _ _ Hinit) as (p & n0 & -> & Hload & _).
  assert (Hfalse : match show_reset_confirmation s with
                   | Some b => b
                   | None => false
                   end = false).
  { destruct (show_reset_confirmation s) as [[|] |]; congruence. }
  cbn [show_reset_confirmation] in Hr. rewrite Hfalse in Hr.
  assert (Ht0 : ~ In EvRemoveLocal t0).
  { destruct (progress s) as [p0 |].
    - destruct Hload as [_ ->]. intros [].
    - pose proof (load_progress_never_removes loc w) as Hl.
      rewrite Hload in Hl. exact Hl. }
  set (doc2 := <["notes" := notes_dict (edit_notes ui n)]>
                 (snd (render_page (checkbox ui) page doc))) in *.
  pose proof (save_progress_never_removes loc (JObj doc2) w) as Hsave.
  pose proof (save_progress_local_file loc (JObj doc2) w) as Hfile.
  unfold reset_block in Hr; cbn [show_reset_confirmation] in Hr.
  destruct (button_reset ui); cbn [ret] in Hr; injection Hr as <- <- <- <-;
    (split; [rewrite !in_app_iff; cbn [In]; tauto |]);
    (split; [discriminate |]); (split; [reflexivity |]);
    (split; [reflexivity |]);
    intros Hok; eexists; apply Hfile, Hok.
Qed.

Lemma reset_needs_two_runs_witness :
  exists s' w' t,
    script_run "" press_reset cleared world_with_file = (Ok (s', w', true), t)
    /\ ~ In EvRemoveLocal t
    /\ show_reset_confirmation s' = Some true
    /\ progress s' <> None.
Proof.
  destruct (fresh_run_completes "" press_reset world_with_file one_task_done)
    as (s' & w' & rerun & t & Hrun & _).
  - reflexivity.
  - intros v Hv. vm_compute in Hv. discriminate Hv.
  - destruct (reset_needs_two_runs "" press_reset cleared s' world_with_file w'
                rerun t) as (H1 & H2 & H3 & H4 & _).
    + discriminate.
    + exact Hrun.
    + cbn [button_reset press_reset] in H3, H4. subst rerun.
      exists s', w', t. repeat split; assumption.
Defined.

(** ** A run in which nothing is touched *)

Lemma subtask_loop_untouched (checkbox : string -> json -> string -> bool)
    (section_key : string) (subtasks : list (string * string))
    (progress : gmap string json) :
  (forall label b key, checkbox label (JBool b) key = b) ->
  (forall k, In k (map (fun kv => full_key section_key (fst kv)) subtasks) ->
             bool_at progress k) ->
  snd (subtask_loop checkbox section_key subtasks progress) = progress.
Proof.
  intros Hcb.
  induction subtasks as [| [subtask_key name] subtasks IH]; intros Hb;
    cbn [subtask_loop]; [reflexivity |].
  destruct (Hb (full_key section_key subtask_key)) as [b Hk];
    [left; reflexivity |].
  unfold persistent_checkbox, get_flag. rewrite Hk, Hcb.
  rewrite (insert_id _ _ _ Hk).
  assert (IH' : snd (subtask_loop checkbox section_key subtasks progress) = progress).
  { apply IH. intros k Hin. apply Hb. right. exact Hin. }
  destruct (subtask_loop checkbox section_key subtasks progress) as [sp p2].
  exact IH'.
Qed.

Lemma render_panels_untouched (checkbox : string -> json -> string -> bool)
    (panels : list Panel) (progress : gmap string json) :
  (forall label b key, checkbox label (JBool b) key = b) ->
  (forall k, In k (flat_map panel_keys panels) -> bool_at progress k) ->
  snd (render_panels checkbox panels progress) = progress.
Proof.
  intros Hcb.
  induction panels as [| p panels IH]; intros Hb; cbn [render_panels];
    [reflexivity |].
  unfold create_subtask_section.
  assert (H1 : snd (subtask_loop checkbox (section_key p) (subtasks p) progress)
               = progress).
  { apply subtask_loop_untouched; [exact Hcb |].
    intros k Hin. apply Hb. cbn [flat_map]. apply in_or_app. left. exact Hin. }
  destruct (subtask_loop checkbox (section_key p) (subtasks p) progress)
    as [sp progress1]. cbn [snd] in H1. subst progress1.
  assert (H2 : snd (render_panels checkbox panels progress) = progress).
  { apply IH. intros k Hin. apply Hb. cbn [flat_map]. apply in_or_app.
    right. exact Hin. }
  destruct (render_panels checkbox panels progress) as [all progress2].
  exact H2.
Qed.

Lemma render_page_untouched (checkbox : string -> json -> string -> bool)
    (sections : list (list Panel)) (progress : gmap string json) :
  (forall label b key, checkbox label (JBool b) key = b) ->
  (forall k, In k (flat_map (flat_map panel_keys) sections) -> bool_at progress k) ->
  snd (render_page checkbox sections progress) = progress.
Proof.
  intros Hcb.
  induction sections as [| panels sections IH]; intros Hb; cbn [render_page];
    [reflexivity |].
  assert (H1 : snd (render_panels checkbox panels progress) = progress).
  { apply render_panels_untouched; [exact Hcb |].
    intros k Hin. apply Hb. cbn [flat_map]. apply in_or_app. left. exact Hin. }
  destruct (render_panels checkbox panels progress) as [all progress1].
  cbn [snd] in H1. subst progress1.
  assert (H2 : snd (render_page checkbox sections progress) = progress).
  { apply IH. intros k Hin. apply Hb. cbn [flat_map]. apply in_or_app.
    right. exact Hin. }
  destruct (render_page checkbox sections progress) as [alls progress2].
  exact H2.
Qed.

(** X20: a run in which the user touches nothing is a fixed point.  From a
    session as a previous run left it (every catalogue key a boolean, the
    notes three strings and stored under [notes]), with every box returning
    its default and every text area its text, the page leaves the document as
    it is, the notes are unchanged, and the run returns the very same session
    after handing that same document to [save_progress]. *)
Theorem untouched_run_changes_nothing (loc : string) (ui : UI) (w : World)
    (doc : gmap string json) (n : Notes) :
  settled doc n ->
  untouched ui ->
  button_reset ui = false ->
  snd (render_page (checkbox ui) page doc) = doc
  /\ edit_notes ui n = n
  /\ script_run loc ui (mkSession (Some (JObj doc)) (Some n) (Some false)) w
     = (Ok (mkSession (Some (JObj doc)) (Some n) (Some false),
            fst (save_progress loc (JObj doc) w), false),
        snd (save_progress loc (JObj doc) w)).
Proof.
  intros (Hbool & Hnotes & a & b & c & ->) [Hcb Hta] Hreset.
  assert (Hpage : snd (render_page (checkbox ui) page doc) = doc).
  { apply render_page_untouched; [exact Hcb |].
    intros k Hin. apply Hbool. rewrite <- page_keys_catalogue. exact Hin. }
  assert (Hedit : edit_notes ui (mkNotes (JStr a) (JStr b) (JStr c))
                  = mkNotes (JStr a) (JStr b) (JStr c)).
  { unfold edit_notes; cbn [to_learn in_progress completed].
    rewrite !Hta. reflexivity. }
  split; [exact Hpage |]. split; [exact Hedit |].
  unfold script_run, init_session; cbn [progress notes show_reset_confirmation].
  cbn [bind ret app progress notes].
  destruct (render_page (checkbox ui) page doc) as [alls doc1].
  cbn [snd] in Hpage. subst doc1.
  unfold autosave. rewrite Hedit, (insert_id _ _ _ Hnotes).
  destruct (save_progress loc (JObj doc) w) as [w1 t]. cbn [fst snd bind].
  unfold reset_block; cbn [show_reset_confirmation]. rewrite Hreset.
  cbn [ret]. rewrite app_nil_r. reflexivity.
Qed.

Lemma all_done_with_notes_settled : settled all_done_with_notes blank_notes.
Proof.
  split; [| split; [reflexivity | exists "", "", ""; reflexivity]].
  assert (Hall : all_tasks_true all_done).
  { apply all_tasks_true_check. vm_compute. reflexivity. }
  intros key Hin. exists true. unfold all_done_with_notes.
  rewrite lookup_insert_ne by (intros <-; exact (notes_is_no_task Hin)).
  unfold all_tasks_true in Hall. rewrite List.Forall_forall in Hall.
  apply Hall, Hin.
Qed.

Lemma untouched_run_changes_nothing_witness :
  script_run "" idle session_all_done bare_world
  = (Ok (session_all_done,
         fst (save_progress "" (JObj all_done_with_notes) bare_world), false),
     snd (save_progress "" (JObj all_done_with_notes) bare_world)).
Proof.
  destruct (untouched_run_changes_nothing "" idle bare_world
              all_done_with_notes blank_notes) as (_ & _ & H).
  - exact all_done_with_notes_settled.
  - split; [intros label b key; destruct b; reflexivity | reflexivity].
  - reflexivity.
  - exact H.
Defined.
